(** * inmobiliaria-data: the text-to-record extraction engine

    A shallow embedding of the parsing core of [inmobiliario_scrapers]
    ([core/utils.py], [nexo/extract.py], [nexo/parser.py], [nexo/model.py])
    and the properties of its specification.

    Conventions of the embedding.
    - A Python [str] is the list of its Unicode code points ([pystr]).
    - A Python [float] produced by [float(s)] is represented by the exact
      decimal that [s] denotes, as a rational of [Q]; CPython rounds that
      decimal to the nearest binary64, which is not modelled.  An equation
      [x == 57.04] of the specification is read as equality with the decimal
      [5704 / 100].
    - A Python [int] is a [Z]; [int(s)] refuses a text of more than 4300
      digits, the limit of the interpreter at its default.
    - [Optional[T]] is [option T]; a call that may raise returns a [result].
    - [re] is embedded as a backtracking matcher with the priorities of
      CPython's engine (greedy before lazy, left alternative first), over the
      operators the patterns of the repository use. *)

From Stdlib Require Import ZArith NArith QArith List String Ascii Bool Lia.
Import ListNotations.
Open Scope Z_scope.

Set Implicit Arguments.

(* ================================================================== *)
(** * Python values *)
(* ================================================================== *)

Module Py.

Definition codepoint := Z.
Definition pystr := list codepoint.

(** ** Exceptions and fallible calls *)

(** An exception object: its class name and [str(e)]. *)
Inductive pyexn : Type :=
| Exception (cls : string) (msg : pystr).

Definition exn_class (e : pyexn) : string := let (c, _) := e in c.
Definition exn_str (e : pyexn) : pystr := let (_, m) := e in m.

Inductive result (A : Type) : Type :=
| Ok (a : A)
| Raise (e : pyexn).
Arguments Ok {A} a.
Arguments Raise {A} e.

Definition bind {A B} (x : result A) (f : A -> result B) : result B :=
  match x with
  | Ok a => f a
  | Raise e => Raise e
  end.

(** [try: body  except Exception as e: handler e] *)
Definition try_except {A} (body : result A) (handler : pyexn -> result A)
  : result A :=
  match body with
  | Ok a => Ok a
  | Raise e => handler e
  end.

Fixpoint mapM {A B} (f : A -> result B) (l : list A) : result (list B) :=
  match l with
  | [] => Ok []
  | a :: l' => bind (f a) (fun b => bind (mapM f l') (fun bs => Ok (b :: bs)))
  end.

(** ** UTF-8 and Latin-1 codecs *)

Definition is_cont (b : Z) : bool := (0x80 <=? b) && (b <=? 0xBF).
Definition in_range (lo hi b : Z) : bool := (lo <=? b) && (b <=? hi).
Definition cont_bits (b : Z) : Z := Z.land b 0x3F.

(** [bytes.decode("utf-8")] with the default strict error handler: [None] is
    [UnicodeDecodeError].  Overlong forms, surrogates and values above
    U+10FFFF are rejected through the admissible ranges of the second byte. *)
Fixpoint decode_utf8 (bs : list Z) : option pystr :=
  match bs with
  | [] => Some []
  | b0 :: r0 =>
    if b0 <? 0x80 then option_map (cons b0) (decode_utf8 r0)
    else if b0 <? 0xC2 then None
    else if b0 <? 0xE0 then
      match r0 with
      | b1 :: r1 =>
        if is_cont b1
        then option_map
               (cons (Z.lor (Z.shiftl (Z.land b0 0x1F) 6) (cont_bits b1)))
               (decode_utf8 r1)
        else None
      | [] => None
      end
    else if b0 <? 0xF0 then
      match r0 with
      | b1 :: b2 :: r2 =>
        if (if b0 =? 0xE0 then in_range 0xA0 0xBF b1
            else if b0 =? 0xED then in_range 0x80 0x9F b1
            else is_cont b1) && is_cont b2
        then option_map
               (cons (Z.lor (Z.shiftl (Z.land b0 0x0F) 12)
                       (Z.lor (Z.shiftl (cont_bits b1) 6) (cont_bits b2))))
               (decode_utf8 r2)
        else None
      | _ => None
      end
    else if b0 <? 0xF5 then
      match r0 with
      | b1 :: b2 :: b3 :: r3 =>
        if (if b0 =? 0xF0 then in_range 0x90 0xBF b1
            else if b0 =? 0xF4 then in_range 0x80 0x8F b1
            else is_cont b1) && is_cont b2 && is_cont b3
        then option_map
               (cons (Z.lor (Z.shiftl (Z.land b0 0x07) 18)
                       (Z.lor (Z.shiftl (cont_bits b1) 12)
                          (Z.lor (Z.shiftl (cont_bits b2) 6) (cont_bits b3)))))
               (decode_utf8 r3)
        else None
      | _ => None
      end
    else None
  end.

(** [str.encode("latin1")]: every code point must fit one byte; [None] is
    [UnicodeEncodeError]. *)
Definition encode_latin1 (s : pystr) : option (list Z) :=
  if forallb (in_range 0 255) s then Some s else None.

(** The bytes of a string literal of this file. *)
Fixpoint bytes_of_string (s : string) : list Z :=
  match s with
  | EmptyString => []
  | String a s' => Z.of_nat (nat_of_ascii a) :: bytes_of_string s'
  end.

(** A Python string literal, written here as a UTF-8 encoded literal. *)
Definition py (s : string) : pystr :=
  match decode_utf8 (bytes_of_string s) with
  | Some u => u
  | None => bytes_of_string s
  end.

(** ** The Unicode character database *)

(** [Py_UNICODE_ISSPACE], which decides [str.isspace], [str.strip] and the
    regex class [\s] on [str] patterns. *)
Definition isspace (c : codepoint) : bool :=
  in_range 0x09 0x0D c || in_range 0x1C 0x20 c || (c =? 0x85) || (c =? 0xA0)
  || (c =? 0x1680) || in_range 0x2000 0x200A c || (c =? 0x2028)
  || (c =? 0x2029) || (c =? 0x202F) || (c =? 0x205F) || (c =? 0x3000).

(** The decimal digits above Latin-1 (general category Nd) depend on the
    version of the database that the interpreter ships: they are a parameter.
    Latin-1 has no decimal digit besides ASCII 0-9. *)
Class UnicodeData : Type := {
  decimal_above_latin1 : codepoint -> option N
}.

(** [Py_UNICODE_TODECIMAL]: the value of a decimal digit, [None] for any
    other character.  It decides the regex class [\d], and gives the digit
    values that [int()] and [float()] read. *)
Definition todecimal `{UnicodeData} (c : codepoint) : option N :=
  if c <? 0x100
  then if in_range 0x30 0x39 c then Some (Z.to_N (c - 0x30)) else None
  else decimal_above_latin1 c.

Definition isdecimal `{UnicodeData} (c : codepoint) : bool :=
  match todecimal c with Some _ => true | None => false end.

(** The blocks of ten decimal digits above Latin-1 in Unicode 15, by their
    first code point, and the fifty mathematical digits U+1D7CE-U+1D7FF. *)
Definition nd_blocks : list Z :=
  [0x660; 0x6F0; 0x7C0; 0x966; 0x9E6; 0xA66; 0xAE6; 0xB66; 0xBE6; 0xC66;
   0xCE6; 0xD66; 0xDE6; 0xE50; 0xED0; 0xF20; 0x1040; 0x1090; 0x17E0; 0x1810;
   0x1946; 0x19D0; 0x1A80; 0x1A90; 0x1B50; 0x1BB0; 0x1C40; 0x1C50; 0xA620;
   0xA8D0; 0xA900; 0xA9D0; 0xA9F0; 0xAA50; 0xABF0; 0xFF10; 0x104A0; 0x10D30;
   0x11066; 0x110F0; 0x11136; 0x111D0; 0x112F0; 0x11450; 0x114D0; 0x11650;
   0x116C0; 0x11730; 0x118E0; 0x11950; 0x11C50; 0x11D50; 0x11DA0; 0x11F50;
   0x16A60; 0x16AC0; 0x16B50; 0x1D7CE; 0x1D7D8; 0x1D7E2; 0x1D7EC; 0x1D7F6;
   0x1E140; 0x1E2F0; 0x1E4F0; 0x1E950; 0x1FBF0].

Fixpoint block_digit (blocks : list Z) (c : codepoint) : option N :=
  match blocks with
  | [] => None
  | b :: bl => if in_range b (b + 9) c then Some (Z.to_N (c - b))
               else block_digit bl c
  end.

Definition unicode_15 : UnicodeData :=
  {| decimal_above_latin1 := block_digit nd_blocks |}.

(** [Py_UNICODE_TOLOWER] (simple lowercase mapping).  Latin-1 is written out.
    Above Latin-1, the code points whose lowercase falls inside Latin-1 are
    listed (dotted capital I, Y with diaeresis, capital sharp S, the Kelvin
    and Angstrom signs); every other code point has its lowercase above
    Latin-1 and stands for it: the patterns of the repository are written in
    Latin-1, so only membership of the lowercase in Latin-1 sets is
    observed. *)
Definition tolower (c : codepoint) : codepoint :=
  if in_range 0x41 0x5A c then c + 0x20
  else if in_range 0xC0 0xDE c && negb (c =? 0xD7) then c + 0x20
  else if c =? 0x130 then 0x69
  else if c =? 0x178 then 0xFF
  else if c =? 0x1E9E then 0xDF
  else if c =? 0x212A then 0x6B
  else if c =? 0x212B then 0xE5
  else c.

(** [Py_UNICODE_TOUPPER] on Latin-1, for the letters of the patterns. *)
Definition toupper_latin1 (c : codepoint) : codepoint :=
  if in_range 0x61 0x7A c then c - 0x20
  else if in_range 0xE0 0xFE c && negb (c =? 0xF7) then c - 0x20
  else if c =? 0xFF then 0x178
  else if c =? 0xB5 then 0x39C
  else c.

(** ** String operations *)

Definition str_eqb (a b : pystr) : bool :=
  if list_eq_dec Z.eq_dec a b then true else false.

Fixpoint dropwhile (p : codepoint -> bool) (s : pystr) : pystr :=
  match s with
  | [] => []
  | c :: s' => if p c then dropwhile p s' else s
  end.

Fixpoint takewhile (p : codepoint -> bool) (s : pystr) : pystr :=
  match s with
  | [] => []
  | c :: s' => if p c then c :: takewhile p s' else []
  end.

(** [s.strip()] *)
Definition strip (s : pystr) : pystr :=
  rev (dropwhile isspace (rev (dropwhile isspace s))).

(** [s.replace(c, empty)] for a one-character [c]. *)
Definition remove_char (c : codepoint) (s : pystr) : pystr :=
  filter (fun x => negb (x =? c)) s.

(** [s.replace(c, d)] for one-character [c] and [d]. *)
Definition replace_char (c d : codepoint) (s : pystr) : pystr :=
  map (fun x => if x =? c then d else x) s.

Fixpoint startswith (p s : pystr) : bool :=
  match p, s with
  | [], _ => true
  | a :: p', b :: s' => (a =? b) && startswith p' s'
  | _ :: _, [] => false
  end.

(** [needle in hay] *)
Fixpoint contains (needle hay : pystr) : bool :=
  startswith needle hay ||
  match hay with
  | [] => false
  | _ :: hay' => contains needle hay'
  end.

(** [c in s] for a one-character [c]. *)
Definition has_char (c : codepoint) (s : pystr) : bool :=
  existsb (Z.eqb c) s.

(** [sep.join(l)] *)
Fixpoint join (sep : pystr) (l : list pystr) : pystr :=
  match l with
  | [] => []
  | [a] => a
  | a :: l' => a ++ sep ++ join sep l'
  end.

(** ** [int()] and [float()] on the strings the parsers hand them *)

(** The value of a run of decimal digits, most significant first; [None]
    when some character is not a decimal digit. *)
Fixpoint digits_value `{UnicodeData} (acc : N) (s : pystr) : option N :=
  match s with
  | [] => Some acc
  | c :: s' =>
    match todecimal c with
    | Some d => digits_value (acc * 10 + d)%N s'
    | None => None
    end
  end.

(** [str(n)] for a natural number. *)
Fixpoint uint_str (u : Decimal.uint) : pystr :=
  match u with
  | Decimal.Nil => []
  | Decimal.D0 u' => 0x30 :: uint_str u'
  | Decimal.D1 u' => 0x31 :: uint_str u'
  | Decimal.D2 u' => 0x32 :: uint_str u'
  | Decimal.D3 u' => 0x33 :: uint_str u'
  | Decimal.D4 u' => 0x34 :: uint_str u'
  | Decimal.D5 u' => 0x35 :: uint_str u'
  | Decimal.D6 u' => 0x36 :: uint_str u'
  | Decimal.D7 u' => 0x37 :: uint_str u'
  | Decimal.D8 u' => 0x38 :: uint_str u'
  | Decimal.D9 u' => 0x39 :: uint_str u'
  end.

Definition str_of_nat (n : nat) : pystr := uint_str (Nat.to_uint n).

(** [sys.get_int_max_str_digits()], at its default. *)
Definition int_max_str_digits : nat := 4300.

(** The [ValueError] of [int()] on a run of [n] digits, [n] above the
    limit. *)
Definition int_limit_error (n : nat) : pyexn :=
  Exception "ValueError"
    (py "Exceeds the limit (" ++ str_of_nat int_max_str_digits ++
     py " digits) for integer string conversion: value has " ++
     str_of_nat n ++
     py " digits; use sys.set_int_max_str_digits() to increase the limit").

(** [int(s)], restricted to the unsigned decimal notation: a non-empty run
    of decimal digits, of at most [int_max_str_digits] digits; a longer run
    of digits, leading zeros included, is refused before it is converted.
    Everything else is reported as [ValueError] too (CPython also accepts a
    sign, surrounding blanks and underscores, which no caller produces). *)
Definition py_int `{UnicodeData} (s : pystr) : result Z :=
  match s with
  | [] => Raise (Exception "ValueError"
                   (py "invalid literal for int() with base 10"))
  | _ =>
    let run := takewhile isdecimal s in
    if (int_max_str_digits <? List.length run)%nat
    then Raise (int_limit_error (List.length run))
    else
      match digits_value 0 s with
      | Some n => Ok (Z.of_N n)
      | None =>
        Raise (Exception "ValueError"
                 (py "invalid literal for int() with base 10: " ++ s))
      end
  end.

Definition pow10 (n : nat) : positive := Nat.iter n (Pos.mul 10) 1%positive.

Definition dot : codepoint := 0x2E.
Definition comma : codepoint := 0x2C.
Definition not_dot (c : codepoint) : bool := negb (c =? dot).

(** [float(s)], restricted to the unsigned decimal notation
    [digits [. digits]] with at least one digit ([float("5.")] and
    [float(".5")] are accepted, [float(".")] is not); [None] is [ValueError].
    The result is the exact decimal: all the digits over ten to the number of
    fraction digits. *)
Definition py_float `{UnicodeData} (s : pystr) : option Q :=
  let ipart := takewhile not_dot s in
  let fpart := tl (dropwhile not_dot s) in
  match ipart ++ fpart with
  | [] => None
  | ds =>
    match digits_value 0 ds with
    | Some n => Some (Z.of_N n # pow10 (List.length fpart))
    | None => None
    end
  end.

End Py.
Import Py.

(* ================================================================== *)
(** * The [re] module: a backtracking matcher *)
(* ================================================================== *)

Module Re.

(** The patterns of the repository repeat one-character items only ([\d+],
    [\s*], [.*?], [[\d\.,]+], ...), so repetition is over a character
    class.  [x+] is [x] followed by [x*], and a greedy [(...)?] is the
    alternative of the group and the empty pattern. *)
Inductive regex : Type :=
| Eps
| Chr (p : codepoint -> bool)
| Seq (r1 r2 : regex)
| Alt (r1 r2 : regex)
| Star (p : codepoint -> bool)
| LazyStar (p : codepoint -> bool)
| Group (name : string) (r : regex).

Definition Plus (p : codepoint -> bool) : regex := Seq (Chr p) (Star p).
Definition LazyPlus (p : codepoint -> bool) : regex := Seq (Chr p) (LazyStar p).
Definition Opt (r : regex) : regex := Alt r Eps.

Fixpoint seqs (l : list regex) : regex :=
  match l with
  | [] => Eps
  | [r] => r
  | r :: l' => Seq r (seqs l')
  end.

(** The groups of a match in progress, most recent binding first. *)
Definition groups := list (string * pystr).

Fixpoint group (name : string) (g : groups) : option pystr :=
  match g with
  | [] => None
  | (n, v) :: g' => if String.eqb name n then Some v else group name g'
  end.

Section Matcher.
Variable A : Type.

(** Greedy repetition: take one more character when possible and fall back
    to the continuation at this position when the longer attempt fails. *)
Fixpoint rep_greedy (p : codepoint -> bool) (s : pystr)
         (k : pystr -> option A) : option A :=
  match s with
  | c :: s' =>
    if p c
    then match rep_greedy p s' k with
         | Some a => Some a
         | None => k s
         end
    else k s
  | [] => k s
  end.

(** Lazy repetition: try the continuation first, take one more character
    only when it fails. *)
Fixpoint rep_lazy (p : codepoint -> bool) (s : pystr)
         (k : pystr -> option A) : option A :=
  match k s with
  | Some a => Some a
  | None =>
    match s with
    | c :: s' => if p c then rep_lazy p s' k else None
    | [] => None
    end
  end.

(** [rmatch r s g k]: match [r] at the head of [s] with the groups [g] bound
    so far, and hand the rest of the text and the groups to [k]; the first
    success in priority order is the answer.  A group records the text
    consumed by its body. *)
Fixpoint rmatch (r : regex) (s : pystr) (g : groups)
         (k : pystr -> groups -> option A) : option A :=
  match r with
  | Eps => k s g
  | Chr p =>
    match s with
    | c :: s' => if p c then k s' g else None
    | [] => None
    end
  | Seq r1 r2 => rmatch r1 s g (fun s1 g1 => rmatch r2 s1 g1 k)
  | Alt r1 r2 =>
    match rmatch r1 s g k with
    | Some a => Some a
    | None => rmatch r2 s g k
    end
  | Star p => rep_greedy p s (fun s' => k s' g)
  | LazyStar p => rep_lazy p s (fun s' => k s' g)
  | Group name r1 =>
    rmatch r1 s g
      (fun s1 g1 =>
         k s1 ((name, firstn (List.length s - List.length s1) s) :: g1))
  end.

End Matcher.

(** [pattern.match(s)]: the groups of the match anchored at the start. *)
Definition match_here (r : regex) (s : pystr) : option groups :=
  rmatch r s [] (fun _ g => Some g).

(** [pattern.search(s)]: the first start position with a match, the end of
    the text included. *)
Fixpoint search (r : regex) (s : pystr) : option groups :=
  match match_here r s with
  | Some g => Some g
  | None =>
    match s with
    | [] => None
    | _ :: s' => search r s'
    end
  end.

(** ** Character classes *)

Definition any (_ : codepoint) : bool := true.
Definition exactly (c t : codepoint) : bool := t =? c.

(** [_sre.unicode_iscased], on the Latin-1 characters of the patterns. *)
Definition iscased (c : codepoint) : bool :=
  negb (tolower c =? c) || negb (toupper_latin1 c =? c).

(** The case fix-ups of [sre_compile] that concern Latin-1: i and dotless i,
    s and long s, the micro sign and Greek mu. *)
Definition fixes (lo : codepoint) : list codepoint :=
  if lo =? 0x69 then [0x131]
  else if lo =? 0x73 then [0x17F]
  else if lo =? 0xB5 then [0x3BC]
  else [].

(** A literal character of a pattern compiled with [re.IGNORECASE]: an
    uncased character matches itself; a cased one matches the characters
    whose lowercase is its lowercase or one of its fix-ups. *)
Definition literal_i (c t : codepoint) : bool :=
  if iscased c
  then let lo := tolower c in
       existsb (Z.eqb (tolower t)) (lo :: fixes lo)
  else t =? c.

(** A literal string, case-sensitive and case-insensitive. *)
Definition lit (s : pystr) : regex := seqs (map (fun c => Chr (exactly c)) s).
Definition lit_i (s : pystr) : regex := seqs (map (fun c => Chr (literal_i c)) s).

Section Classes.
Context `{UnicodeData}.

(** [\d] and [\s] on [str] patterns. *)
Definition digit : codepoint -> bool := isdecimal.
Definition space : codepoint -> bool := isspace.

(** [[\d\.,]]: no cased member, so [re.IGNORECASE] changes nothing. *)
Definition digit_dot_comma (t : codepoint) : bool :=
  isdecimal t || (t =? dot) || (t =? comma).

(** [[\.,]] *)
Definition dot_comma (t : codepoint) : bool := (t =? dot) || (t =? comma).

(** [[A-Za-z0-9\-_]] compiled with [re.IGNORECASE]: the lowercase of the
    character is looked up in the lowercased set with its fix-ups. *)
Definition word_hyphen_i (t : codepoint) : bool :=
  let l := tolower t in
  in_range 0x61 0x7A l || in_range 0x30 0x39 l || (l =? 0x2D) || (l =? 0x5F)
  || (l =? 0x131) || (l =? 0x17F).

End Classes.

(** ** The language of a pattern *)

(** The texts that a pattern can consume, whatever the priorities. *)
Fixpoint lang (r : regex) (s : pystr) : Prop :=
  match r with
  | Eps => s = []
  | Chr p => exists c, s = [c] /\ p c = true
  | Seq r1 r2 => exists s1 s2, s = s1 ++ s2 /\ lang r1 s1 /\ lang r2 s2
  | Alt r1 r2 => lang r1 s \/ lang r2 s
  | Star p => forallb p s = true
  | LazyStar p => forallb p s = true
  | Group _ r1 => lang r1 s
  end.

(** The groups that take part in every match of a pattern. *)
Fixpoint binds (r : regex) : list string :=
  match r with
  | Seq r1 r2 => binds r2 ++ binds r1
  | Group name r1 => name :: binds r1
  | _ => []
  end.

(** Every group of [r] has a body whose texts satisfy [Inv] at the name of
    the group. *)
Fixpoint respects (Inv : string -> pystr -> Prop) (r : regex) : Prop :=
  match r with
  | Seq r1 r2 => respects Inv r1 /\ respects Inv r2
  | Alt r1 r2 => respects Inv r1 /\ respects Inv r2
  | Group name r1 => (forall s, lang r1 s -> Inv name s) /\ respects Inv r1
  | _ => True
  end.

Definition groups_ok (Inv : string -> pystr -> Prop) (g : groups) : Prop :=
  forall n v, In (n, v) g -> Inv n v.

End Re.
Import Re.

(* ================================================================== *)
(** * core/utils.py *)
(* ================================================================== *)

Module Utils.

(** [_CLEAN_SPACES.sub(one_space, s)] for the pattern [\s+]:
    every maximal run of whitespace becomes one space.  [in_run] tells that
    the previous character belonged to the run being replaced. *)
Fixpoint sub_spaces (in_run : bool) (s : pystr) : pystr :=
  match s with
  | [] => []
  | c :: s' =>
    if isspace c
    then if in_run then sub_spaces true s' else 0x20 :: sub_spaces true s'
    else c :: sub_spaces false s'
  end.

(** [clean_text] on a [str]: the fallback of the source for a false
    argument leaves an empty string as it is. *)
Definition clean_text (s : pystr) : pystr := strip (sub_spaces false s).

(** [s.encode(latin1).decode(utf-8)], the body of the [try] block of
    [fix_mojibake]: [None] when either step raises. *)
Definition latin1_utf8 (s : pystr) : option pystr :=
  match encode_latin1 s with
  | None => None
  | Some bs => decode_utf8 bs
  end.

Definition fix_mojibake (s : pystr) : pystr :=
  match s with
  | [] => s
  | _ =>
    match latin1_utf8 s with
    | Some u => u
    | None => s
    end
  end.

Section Numeric.
Context `{UnicodeData}.

(** The pattern [(\d[\d\.,]* )] of [parse_money_to_float]. *)
Definition MONEY_RE : regex :=
  Group "1" (Seq (Chr digit) (Star digit_dot_comma)).

(** The pattern [(\d+[\.,]?\d* )] of [parse_float]. *)
Definition FLOAT_RE : regex :=
  Group "1" (seqs [Plus digit; Opt (Chr dot_comma); Star digit]).

(** In both parsers group 1 spans the whole pattern, so [m.group(1)] is a
    string in every match ([money_group_bound], [float_group_bound]); the
    unbound case is kept for totality. *)
Definition parse_money_to_float (text : option pystr) : option Q :=
  match text with
  | None => None
  | Some [] => None
  | Some text =>
    let t := fix_mojibake (clean_text text) in
    match search MONEY_RE t with
    | None => None
    | Some m =>
      match group "1" m with
      | None => None
      | Some num =>
        let num := remove_char comma (remove_char dot num) in
        py_float num
      end
    end
  end.

Definition parse_float (text : option pystr) : option Q :=
  match text with
  | None => None
  | Some [] => None
  | Some text =>
    let t := fix_mojibake (clean_text text) in
    match search FLOAT_RE t with
    | None => None
    | Some m =>
      match group "1" m with
      | None => None
      | Some raw =>
        let raw :=
          if has_char comma raw && negb (has_char dot raw)
          then replace_char comma dot raw
          else remove_char comma raw in
        py_float raw
      end
    end
  end.

End Numeric.

End Utils.
Import Utils.

(* ================================================================== *)
(** * nexo/model.py *)
(* ================================================================== *)

Module Model.

Record Tipologia : Type := {
  modelo : pystr;
  area_m2 : option Q;
  precio_desde : option Q;
  moneda : option pystr;
  unidades_disponibles : option Z;
  piso_min : option Z;
  piso_max : option Z;
  dormitorios : option Z;
  banos : option Z;
  raw : option pystr;
  parse_ok : bool
}.

Record Proyecto : Type := {
  nombre : option pystr;
  direccion : option pystr;
  p_precio_desde : option Q;
  p_moneda : option pystr;
  tipologias : list Tipologia
}.

End Model.
Import Model.

(* ================================================================== *)
(** * nexo/parser.py: the card grammar *)
(* ================================================================== *)

Module Parser.

Section Card.
Context `{UnicodeData}.

(** [CARD_RE], compiled with [re.IGNORECASE | re.VERBOSE | re.DOTALL]: the
    blanks and line breaks of the verbose pattern are not part of it, and
    [.] matches every character.  One list item per line of the source. *)
Definition CARD_RE : regex :=
  seqs [
    Opt (Group "prefix" (lit_i (py "Plano"))); Star space;
    Group "proyecto" (LazyPlus any); Star space;
    Group "unidades" (Plus digit); Plus space; lit_i (py "unidad");
      Opt (lit_i (py "es")); Plus space; lit_i (py "disponible");
      Opt (lit_i (py "s")); Star space;
    LazyStar any; lit_i (py "Desde"); Star space;
      Group "moneda" (Alt (lit_i (py "S/")) (lit_i (py "US$"))); Star space;
      Group "precio" (Plus digit_dot_comma); Star space;
    LazyStar any; lit_i (py "Modelo"); Star space;
      Group "modelo" (Plus word_hyphen_i); Star space;
    LazyStar any; Group "area" (Plus digit_dot_comma); Star space;
      lit_i (py "m");
      Alt (lit_i (py "²")) (Alt (lit_i (py "2")) (lit_i (py "Â²")));
      Star space;
    LazyStar any; lit_i (py "Piso"); Opt (lit_i (py "s")); Star space;
      Group "piso_min" (Plus digit);
      Opt (seqs [Star space; lit_i (py "al"); Star space;
                 Group "piso_max" (Plus digit)]);
      Star space;
    LazyStar any; Group "dorms" (Plus digit); Star space; lit_i (py "dorm");
      Opt (lit_i (py "s")); Star space;
    LazyStar any; Group "banos" (Plus digit); Star space; lit_i (py "bañ");
      Alt (lit_i (py "o"))
        (Alt (lit_i (py "os")) (Alt (lit_i (py "Ã±o")) (lit_i (py "Ã±os"))));
      Star space
  ].

(** The groups whose body is [\d+]. *)
Definition int_groups : list string :=
  ["unidades"; "piso_min"; "piso_max"; "dorms"; "banos"]%string.

(** What is known of the text of each group of [CARD_RE]. *)
Definition card_inv (name : string) (v : pystr) : Prop :=
  existsb (String.eqb name) int_groups = true ->
  v <> [] /\ forallb isdecimal v = true.

(** Truth value of an [Optional[str]]. *)
Definition truthy (o : option pystr) : bool :=
  match o with
  | Some (_ :: _) => true
  | _ => false
  end.

(** [{x}] in an f-string. *)
Definition fstr (o : option pystr) : pystr :=
  match o with
  | Some v => v
  | None => py "None"
  end.

(** [int(g[name]) if g.get(name) else None] *)
Definition int_if_set (o : option pystr) : result (option Z) :=
  match o with
  | Some (c :: v) => bind (py_int (c :: v)) (fun n => Ok (Some n))
  | _ => Ok None
  end.

Definition parse_card_text (txt : pystr) : result Tipologia :=
  let raw := fix_mojibake (clean_text txt) in
  match search CARD_RE raw with
  | None =>
    Ok {| modelo := [];
          area_m2 := parse_float (Some raw);
          precio_desde := parse_money_to_float (Some raw);
          moneda := None;
          unidades_disponibles := None;
          piso_min := None;
          piso_max := None;
          dormitorios := None;
          banos := None;
          raw := Some raw;
          parse_ok := false |}
  | Some g =>
    let moneda := group "moneda" g in
    let precio :=
      parse_money_to_float
        (Some (fstr moneda ++ py " " ++ fstr (group "precio" g))) in
    let area := parse_float (group "area" g) in
    bind (int_if_set (group "piso_min" g)) (fun piso_min =>
    bind (if truthy (group "piso_max" g)
          then int_if_set (group "piso_max" g)
          else Ok piso_min) (fun piso_max =>
    bind (int_if_set (group "unidades" g)) (fun unidades =>
    bind (int_if_set (group "dorms" g)) (fun dorms =>
    bind (int_if_set (group "banos" g)) (fun banos' =>
    Ok {| modelo := if truthy (group "modelo" g)
                    then fstr (group "modelo" g) else [];
          area_m2 := area;
          precio_desde := precio;
          moneda := moneda;
          unidades_disponibles := unidades;
          piso_min := piso_min;
          piso_max := piso_max;
          dormitorios := dorms;
          banos := banos';
          raw := Some raw;
          parse_ok := true |})))))
  end.

End Card.

End Parser.
Import Parser.

(* ================================================================== *)
(** * The parsed page (BeautifulSoup) *)
(* ================================================================== *)

Module Soup.

(** The tree that the HTML parser builds.  A [NavigableString] is a piece of
    text; a [Comment] is one of the string kinds that text extraction skips.
    The [BeautifulSoup] object is itself a tag, the root of the page. *)
#[warnings="-register-all"]
Inductive node : Type :=
| NavigableString (s : pystr)
| Comment (s : pystr)
| Tag (name : pystr) (attrs : list (pystr * pystr)) (children : list node).

(** Every node below [n], in document order. *)
Fixpoint descendants (n : node) : list node :=
  match n with
  | Tag _ _ children => flat_map (fun c => c :: descendants c) children
  | _ => []
  end.

Fixpoint attr (name : pystr) (attrs : list (pystr * pystr)) : option pystr :=
  match attrs with
  | [] => None
  | (n, v) :: attrs' => if str_eqb n name then Some v else attr name attrs'
  end.

(** The whitespace-separated tokens of an attribute value. *)
Fixpoint tokens (cur : pystr) (s : pystr) : list pystr :=
  match s with
  | [] => match cur with [] => [] | _ => [rev cur] end
  | c :: s' =>
    if isspace c
    then match cur with [] => tokens [] s' | _ => rev cur :: tokens [] s' end
    else tokens (c :: cur) s'
  end.

(** The CSS selectors that the repository uses: a type selector ([h1]), a
    class selector ([.card]), an attribute selector ([[a='v']]) and the
    descendant combinator of two type selectors ([h1 span]). *)
Inductive simple_selector : Type :=
| ByName (name : pystr)
| ByClass (cls : pystr)
| ByAttr (name value : pystr).

Inductive selector : Type :=
| Simple (s : simple_selector)
| Descendant (ancestor s : simple_selector).

Definition matches (s : simple_selector) (n : node) : bool :=
  match n with
  | Tag name attrs _ =>
    match s with
    | ByName x => str_eqb name x
    | ByClass c =>
      match attr (py "class") attrs with
      | Some v => existsb (str_eqb c) (tokens [] v)
      | None => false
      end
    | ByAttr a v =>
      match attr a attrs with
      | Some w => str_eqb w v
      | None => false
      end
    end
  | _ => false
  end.

(** The nodes below [n] that match [s] and have an ancestor matching [anc];
    [under] tells that [n] or one of its ancestors matches [anc]. *)
Fixpoint select_under (anc s : simple_selector) (under : bool) (n : node)
  : list node :=
  match n with
  | Tag _ _ children =>
    flat_map
      (fun c =>
         (if under && matches s c then [c] else [])
           ++ select_under anc s (under || matches anc c) c)
      children
  | _ => []
  end.

(** [soup.select(sel)]: the matching elements in document order. *)
Definition select (soup : node) (sel : selector) : list node :=
  match sel with
  | Simple s => filter (matches s) (descendants soup)
  | Descendant anc s => select_under anc s false soup
  end.

(** [soup.select_one(sel)] *)
Definition select_one (soup : node) (sel : selector) : option node :=
  hd_error (select soup sel).

Definition is_tag_named (names : list pystr) (n : node) : bool :=
  match n with
  | Tag name _ _ => existsb (str_eqb name) names
  | _ => false
  end.

(** [soup.find_all(names)] *)
Definition find_all (soup : node) (names : list pystr) : list node :=
  filter (is_tag_named names) (descendants soup).

Definition nonempty (s : pystr) : bool :=
  match s with [] => false | _ => true end.

Definition string_of (n : node) : list pystr :=
  match n with
  | NavigableString s => [s]
  | _ => []
  end.

(** [tag.stripped_strings]: the text pieces below the tag, stripped, the
    empty ones left out. *)
Definition stripped_strings (n : node) : list pystr :=
  filter nonempty (map strip (flat_map string_of (descendants n))).

(** [tag.get_text(sep, strip=True)] *)
Definition get_text (sep : pystr) (n : node) : pystr :=
  join sep (stripped_strings n).

End Soup.
Import Soup.

(* ================================================================== *)
(** * nexo/extract.py *)
(* ================================================================== *)

Module Extract.

Definition selectors : list selector :=
  [ Simple (ByClass (py "modelo-card"));
    Simple (ByClass (py "model-card"));
    Simple (ByAttr (py "data-testid") (py "model-card"));
    Simple (ByClass (py "card-modelo"));
    Simple (ByClass (py "card")) ].

(** The loop over the selectors: the cards of the first selector that finds
    at least two elements, [None] when the loop ends without returning. *)
Fixpoint first_cards (soup : node) (sels : list selector)
  : option (list node) :=
  match sels with
  | [] => None
  | sel :: sels' =>
    let cards := select soup sel in
    if (2 <=? List.length cards)%nat then Some cards
    else first_cards soup sels'
  end.

(** The test of the fallback scan on the text of one block. *)
Definition keyword_block (txt : pystr) : bool :=
  contains (py "Modelo") txt && contains (py "Desde") txt
  && (contains (py "m") txt || contains (py "m²") txt
      || contains (py "mÂ²") txt).

(** The last loop: [seen] holds the texts already emitted. *)
Fixpoint dedupe (seen : list pystr) (blocks : list pystr) : list pystr :=
  match blocks with
  | [] => []
  | b :: blocks' =>
    if existsb (str_eqb b) seen then dedupe seen blocks'
    else b :: dedupe (b :: seen) blocks'
  end.

Definition card_text (c : node) : pystr := join (py " ") (stripped_strings c).

(** The body of [extract_card_texts] after the page is parsed. *)
Definition extract_from_soup (soup : node) : list pystr :=
  match first_cards soup selectors with
  | Some cards => map card_text cards
  | None =>
    let blocks :=
      filter (fun txt => nonempty txt && keyword_block txt)
        (map card_text
           (find_all soup [py "div"; py "section"; py "article"; py "li"])) in
    dedupe [] blocks
  end.

Section Parser.
(** [BeautifulSoup(html, html.parser)]: the HTML parser is a library, it
    yields the tree of the page or raises. *)
Variable BeautifulSoup : pystr -> result node.

Definition extract_card_texts (html : pystr) : result (list pystr) :=
  bind (BeautifulSoup html) (fun soup => Ok (extract_from_soup soup)).

End Parser.

End Extract.
Import Extract.

(* ================================================================== *)
(** * nexo/parser.py: the project parser *)
(* ================================================================== *)

Module Project.

Section NexoParser.
Context `{UnicodeData}.
Variable BeautifulSoup : pystr -> result node.

Record NexoParser : Type := {
  html : pystr;
  soup : node
}.

(** [NexoParser.__init__] *)
Definition NexoParser_init (html : pystr) : result NexoParser :=
  bind (BeautifulSoup html) (fun s => Ok {| html := html; soup := s |}).

(** [_find_first_text]: a tag is always true, so the first selector that
    finds an element decides. *)
Fixpoint _find_first_text (soup : node) (sels : list selector)
  : option pystr :=
  match sels with
  | [] => None
  | sel :: sels' =>
    match select_one soup sel with
    | Some el => Some (get_text (py " ") el)
    | None => _find_first_text soup sels'
    end
  end.

(** [if x: x = fix_mojibake(clean_text(x))] *)
Definition normalize_if_set (x : option pystr) : option pystr :=
  if truthy x then Some (fix_mojibake (clean_text (fstr x))) else x.

(** The page-wide price pattern, compiled with [re.IGNORECASE]. *)
Definition DESDE_RE : regex :=
  seqs [ lit_i (py "Desde"); Star space;
         Group "1" (Alt (lit_i (py "S/")) (lit_i (py "US$"))); Star space;
         Group "2" (Plus digit_dot_comma) ].

(** The two selector lists of [NexoParser.parse]. *)
Definition name_selectors : list selector :=
  [ Simple (ByName (py "h1"));
    Descendant (ByName (py "h1")) (ByName (py "span"));
    Simple (ByClass (py "project-title"));
    Simple (ByClass (py "titulo")) ].

Definition address_selectors : list selector :=
  [ Simple (ByAttr (py "data-testid") (py "project-address"));
    Simple (ByClass (py "direccion"));
    Simple (ByClass (py "address"));
    Simple (ByClass (py "project-address")) ].

(** The body of the [try] block of [NexoParser.parse]. *)
Definition parse_body (self : NexoParser) : result Proyecto :=
  let nombre :=
    normalize_if_set (_find_first_text (soup self) name_selectors) in
  let direccion :=
    normalize_if_set (_find_first_text (soup self) address_selectors) in
  let full_text := fix_mojibake (clean_text (get_text (py " ") (soup self))) in
  let '(moneda, precio_desde) :=
    match search DESDE_RE full_text with
    | Some m =>
      (group "1" m,
       parse_money_to_float
         (Some (fstr (group "1" m) ++ py " " ++ fstr (group "2" m))))
    | None => (None, None)
    end in
  bind (extract_card_texts BeautifulSoup (html self)) (fun card_texts =>
  bind (mapM parse_card_text card_texts) (fun tipologias =>
  Ok {| nombre := nombre;
        direccion := direccion;
        p_precio_desde := precio_desde;
        p_moneda := moneda;
        tipologias := tipologias |})).

(** [NexoParser.parse]: the body under [except Exception as e]. *)
Definition parse (self : NexoParser) : result Proyecto :=
  try_except (parse_body self)
    (fun e =>
       Raise (Exception "ParseError" (py "Error parsing Nexo: " ++ exn_str e))).

End NexoParser.

End Project.
Import Project.

(* ================================================================== *)
(** * nexo/scraper.py *)
(* ================================================================== *)

Module Scraper.

Section NexoScraper.
Context `{UnicodeData}.
Variable BeautifulSoup : pystr -> result node.

(** [download_html(url, cfg)]: the HTTP client is a library, it yields the
    text of the page or raises. *)
Variable download_html : pystr -> result pystr.

(** [NexoScraper.fetch] *)
Definition NexoScraper_fetch (url : pystr) : result pystr :=
  try_except (download_html url)
    (fun e =>
       Raise (Exception "FetchError"
                (py "Error fetching " ++ url ++ py ": " ++ exn_str e))).

(** [NexoScraper.parse]: the project that [asdict] turns into a
    dictionary, field by field. *)
Definition NexoScraper_parse (html : pystr) : result Proyecto :=
  bind (NexoParser_init BeautifulSoup html) (parse BeautifulSoup).

(** The dictionary that [NexoScraper.run] returns: the fields of the
    project and the keys that [run] adds. *)
Record RunData : Type := {
  data : Proyecto;
  data_url : pystr;
  tipologias_rows : Z;
  parse_ok_rows : Z;
  parse_fail_rows : Z
}.

(** [sum(1 for t in tips if t.get(parse_ok))] *)
Definition count_parse_ok (tips : list Tipologia) : Z :=
  fold_right (fun t n => if parse_ok t then 1 + n else n) 0 tips.

(** [NexoScraper.run(url)] with no [raw_dir] and [debug] off: nothing is
    written, and the count of extracted cards is not recorded. *)
Definition NexoScraper_run (url : pystr) : result RunData :=
  bind (NexoScraper_fetch url) (fun html =>
  bind (NexoScraper_parse html) (fun d =>
  let tips := tipologias d in
  let n_ok := count_parse_ok tips in
  Ok {| data := d;
        data_url := url;
        tipologias_rows := Z.of_nat (List.length tips);
        parse_ok_rows := n_ok;
        parse_fail_rows := Z.of_nat (List.length tips) - n_ok |})).

End NexoScraper.

End Scraper.
Import Scraper.

(* ================================================================== *)
(** * scripts/nexo.py and scripts/nexo_batch_old.py: the pure helpers *)
(* ================================================================== *)

Module Scripts.

(** The class [[a-zA-Z0-9]]. *)
Definition ascii_alnum (c : codepoint) : bool :=
  in_range 0x30 0x39 c || in_range 0x41 0x5A c || in_range 0x61 0x7A c.

Definition hyphen : codepoint := 0x2D.
Definition is_hyphen (c : codepoint) : bool := c =? hyphen.

(** [re.sub(pattern, hyphen, url)] for the pattern [[^a-zA-Z0-9]+]: every
    maximal run of other characters becomes one hyphen.  [in_run] tells that
    the previous character belonged to the run being replaced. *)
Fixpoint sub_non_alnum (in_run : bool) (s : pystr) : pystr :=
  match s with
  | [] => []
  | c :: s' =>
    if ascii_alnum c then c :: sub_non_alnum false s'
    else if in_run then sub_non_alnum true s'
         else hyphen :: sub_non_alnum true s'
  end.

(** [s.strip(chars)] for the characters that satisfy [p]. *)
Definition strip_chars (p : codepoint -> bool) (s : pystr) : pystr :=
  rev (dropwhile p (rev (dropwhile p s))).

(** [s[-n:] if len(s) > n else s] *)
Definition last_n (n : nat) (s : pystr) : pystr :=
  if (n <? List.length s)%nat then skipn (List.length s - n) s else s.

(** [_slugify], the same in both scripts. *)
Definition _slugify (url : pystr) : pystr :=
  last_n 80 (strip_chars is_hyphen (sub_non_alnum false url)).

(** The line boundaries of [str.splitlines]. *)
Definition is_linebreak (c : codepoint) : bool :=
  in_range 0x0A 0x0D c || in_range 0x1C 0x1E c || (c =? 0x85)
  || (c =? 0x2028) || (c =? 0x2029).

(** [s.splitlines()]: the text between line boundaries, a carriage return
    followed by a line feed counting as one boundary, and no empty line
    after the last boundary.  [cur] holds the current line backwards and
    [after_cr] tells that the previous character was a carriage return. *)
Fixpoint splitlines_from (after_cr : bool) (cur : pystr) (s : pystr)
  : list pystr :=
  match s with
  | [] => match cur with [] => [] | _ => [rev cur] end
  | c :: s' =>
    if (c =? 0x0A) && after_cr then splitlines_from false cur s'
    else if is_linebreak c
         then rev cur :: splitlines_from (c =? 0x0D) [] s'
         else splitlines_from false (c :: cur) s'
  end.

Definition splitlines (s : pystr) : list pystr := splitlines_from false [] s.

(** The loop of [_read_urls] over the text of the file. *)
Definition _read_urls (content : pystr) : list pystr :=
  filter (fun s => nonempty s && negb (startswith (py "#") s))
         (map strip (splitlines content)).

End Scripts.
Import Scripts.

(* ================================================================== *)
(** * The numeric parsers as the specification words them *)
(* ================================================================== *)

Module Spec.

Section Runs.
Context `{UnicodeData}.

(** The first contiguous run [digit (digit|.|,)*] of a text. *)
Fixpoint money_run (t : pystr) : option pystr :=
  match t with
  | [] => None
  | c :: t' =>
    if isdecimal c then Some (c :: takewhile digit_dot_comma t')
    else money_run t'
  end.

(** The run [digit+ (.|,)? digit*] that starts with the digit [c] followed
    by [t']. *)
Definition float_run_at (c : codepoint) (t' : pystr) : pystr :=
  let ipart := c :: takewhile isdecimal t' in
  match dropwhile isdecimal t' with
  | sep :: r => if dot_comma sep then ipart ++ sep :: takewhile isdecimal r
                else ipart
  | [] => ipart
  end.

(** The first run [digit+ (.|,)? digit*] of a text. *)
Fixpoint float_run (t : pystr) : option pystr :=
  match t with
  | [] => None
  | c :: t' => if isdecimal c then Some (float_run_at c t') else float_run t'
  end.

(** The number that a run of decimal digits denotes. *)
Definition number (s : pystr) : N :=
  fold_left
    (fun acc c => acc * 10 + match todecimal c with Some d => d | None => 0 end)%N
    s 0%N.

(** The money parser: normalize and fix the input, locate the first run,
    strip every period and comma, read the remaining digits as an
    integer-valued float. *)
Definition money (text : option pystr) : option Q :=
  match text with
  | None => None
  | Some [] => None
  | Some text =>
    match money_run (fix_mojibake (clean_text text)) with
    | None => None
    | Some run =>
      Some (inject_Z (Z.of_N (number (filter (fun c => negb (dot_comma c)) run))))
    end
  end.

(** The float parser: normalize and fix the input, locate the first run; a
    comma with no period is the decimal separator, otherwise commas are
    stripped and a period is the decimal separator. *)
Definition float (text : option pystr) : option Q :=
  match text with
  | None => None
  | Some [] => None
  | Some text =>
    match float_run (fix_mojibake (clean_text text)) with
    | None => None
    | Some run =>
      py_float
        (if has_char comma run && negb (has_char dot run)
         then replace_char comma dot run
         else remove_char comma run)
    end
  end.

End Runs.

End Spec.

(* ================================================================== *)
(** * How mojibake arises: the codecs in the other direction *)
(* ================================================================== *)

Module Codec.

(** A code point that UTF-8 encodes: not a surrogate, at most U+10FFFF. *)
Definition is_scalar (c : codepoint) : bool :=
  in_range 0 0xD7FF c || in_range 0xE000 0x10FFFF c.

(** The UTF-8 bytes of one code point. *)
Definition encode_utf8_cp (c : codepoint) : list Z :=
  if c <? 0x80 then [c]
  else if c <? 0x800 then
    [Z.lor 0xC0 (Z.shiftr c 6); Z.lor 0x80 (Z.land c 0x3F)]
  else if c <? 0x10000 then
    [Z.lor 0xE0 (Z.shiftr c 12);
     Z.lor 0x80 (Z.land (Z.shiftr c 6) 0x3F);
     Z.lor 0x80 (Z.land c 0x3F)]
  else
    [Z.lor 0xF0 (Z.shiftr c 18);
     Z.lor 0x80 (Z.land (Z.shiftr c 12) 0x3F);
     Z.lor 0x80 (Z.land (Z.shiftr c 6) 0x3F);
     Z.lor 0x80 (Z.land c 0x3F)].

(** [str.encode(utf-8)]: [None] is [UnicodeEncodeError]. *)
Definition encode_utf8 (s : pystr) : option (list Z) :=
  if forallb is_scalar s then Some (flat_map encode_utf8_cp s) else None.

(** [bytes.decode(latin1)]: every byte is the code point of its value. *)
Definition decode_latin1 (bs : list Z) : pystr := bs.

(** The text that a page shows when its UTF-8 bytes are read as Latin-1. *)
Definition mojibake (s : pystr) : option pystr :=
  option_map decode_latin1 (encode_utf8 s).

End Codec.
Import Codec.

(* ================================================================== *)
(** * Shapes of texts *)
(* ================================================================== *)

Module Shape.

(** A text in which every whitespace character is one space that follows a
    character that is not whitespace; [after_space] tells that the previous
    character was whitespace. *)
Fixpoint single_spaced (after_space : bool) (s : pystr) : bool :=
  match s with
  | [] => true
  | c :: s' =>
    if isspace c
    then (c =? 0x20) && negb after_space && single_spaced true s'
    else single_spaced false s'
  end.

Definition not_space (c : codepoint) : bool := negb (isspace c).

(** [v] occurs in [s] as a contiguous piece. *)
Definition infix (v s : pystr) : Prop := exists a b, s = a ++ v ++ b.

End Shape.
Import Shape.

(* ================================================================== *)
(** * Shapes of the pieces of a card and of a slug *)
(* ================================================================== *)

Module Pieces.

(** The text in which the parsers look for a number. *)
Definition searched (text : option pystr) : pystr :=
  match text with
  | Some t => fix_mojibake (clean_text t)
  | None => []
  end.

(** The text of a currency group: S/ or US$ in any letter case. *)
Definition currency_token (v : pystr) : Prop :=
  (exists a, v = [a; 0x2F] /\ literal_i 0x53 a = true) \/
  (exists a b, v = [a; b; 0x24] /\
               literal_i 0x55 a = true /\ literal_i 0x53 b = true).

Section Full.
Context `{UnicodeData}.

(** What is known of the text of every group of [CARD_RE]. *)
Definition card_inv_full (name : string) (v : pystr) : Prop :=
  card_inv name v /\
  (name = "modelo"%string -> v <> [] /\ forallb word_hyphen_i v = true) /\
  (name = "moneda"%string -> currency_token v).

End Full.

(** The nine spellings of S/ and US$ that the patterns accept under
    [re.IGNORECASE]: S, s or the long s, and U or u. *)
Definition currency_spellings : list pystr :=
  [ [0x53; 0x2F]; [0x73; 0x2F]; [0x17F; 0x2F];
    [0x55; 0x53; 0x24]; [0x55; 0x73; 0x24]; [0x55; 0x17F; 0x24];
    [0x75; 0x53; 0x24]; [0x75; 0x73; 0x24]; [0x75; 0x17F; 0x24] ].

(** The characters that the class [[A-Za-z0-9\-_]] accepts under
    [re.IGNORECASE]: the ASCII letters and digits, the hyphen, the
    underscore, and the four characters above ASCII that have an ASCII
    letter among their case variants (dotted capital I, dotless small i,
    long s and the Kelvin sign). *)
Definition model_code_char (c : codepoint) : bool :=
  ascii_alnum c || (c =? 0x2D) || (c =? 0x5F)
  || (c =? 0x130) || (c =? 0x131) || (c =? 0x17F) || (c =? 0x212A).

(** Every group of [d] holds a piece of [s]. *)
Definition groups_in (s : pystr) (d : groups) : Prop :=
  forall n v, In (n, v) d -> infix v s.

(** A text of letters and digits separated by single hyphens. *)
Fixpoint dashed (after_dash : bool) (s : pystr) : bool :=
  match s with
  | [] => true
  | c :: s' =>
    if ascii_alnum c then dashed false s'
    else (c =? hyphen) && negb after_dash && dashed true s'
  end.

End Pieces.
Import Pieces.

(* ================================================================== *)
(** * Sample cards and pages *)
(* ================================================================== *)

(** The two end-to-end cards of the specification. *)
Definition card_napoles : pystr :=
  py "PlanoTorre Nápoles27 unidades disponiblesDesde S/ 327,550Modelo AX0157.04 m²Pisos 2 al 282 dorms.2 baños".

Definition card_a209 : pystr :=
  py "1 unidad disponibleDesde S/ 271,441Modelo A-20944.63 m²Piso 21 dorms.1 baño".

(** The cards of [tests/test_card_regex.py], as the page delivers them. *)
Definition test_card_t1 : pystr :=
  py "PlanoTorre NÃ¡poles27 unidades disponiblesDesdeS/ 327,550Modelo AX0157.04 mÂ²Pisos 2 al  282 dorms.2 baÃ±os".

Definition test_card_t2 : pystr :=
  py "PlanoTorre NÃ¡poles1 unidad disponibleDesdeS/ 271,441Modelo A-20944.63 mÂ²Piso 21 dorms.1 baÃ±o".

(** A card whose floor range is written downwards. *)
Definition card_floors_28_to_2 : pystr :=
  py "Torre Sol 3 unidades disponibles Desde S/ 250,000 Modelo B2 60 m² Pisos 28 al 2 3 dorms. 2 baños".

(** A page with one block that names a model and a price and no area. *)
Definition card_without_area : pystr :=
  py "Modelo AX01 Desde S/ 327,550 2 dorms. 2 baños".

Definition page_without_area : node :=
  Tag (py "[document]") []
      [Tag (py "div") [] [NavigableString card_without_area]].

(** An exception of the HTML parser. *)
Definition rejected_markup : pyexn :=
  Exception "ParserRejectedMarkup" (py "expected name token").

(** A page whose first selector finds two cards with the same text. *)
Definition page_two_cards : node :=
  Tag (py "[document]") []
      [Tag (py "div") [(py "class", py "card")]
           [NavigableString (py " Modelo A ")];
       Tag (py "div") [(py "class", py "big card")]
           [NavigableString (py " Modelo A ")]].

(** A page with one block that only the keyword scan finds. *)
Definition page_one_block : node :=
  Tag (py "[document]") []
      [Tag (py "li") [] [NavigableString (py "Modelo  B2  Desde S/ 100 m")]].

(** A card that the grammar matches and whose count of units has 4301
    digits, one more than [int] accepts. *)
Definition card_long_units : pystr :=
  py "Torre A " ++ repeat 0x31 4301 ++
  py " unidades disponibles Desde S/ 100 Modelo B2 57 m2 Piso 1 2 dorms. 2 baños".

(** The text of a file of addresses: a comment, an address with spaces
    around it, an empty line and an address without a final line end. *)
Definition urls_file_text : pystr :=
  py "# semillas" ++ [0x0A] ++
  py "  https://nexoinmobiliario.pe/a-1  " ++ [0x0D; 0x0A; 0x0A] ++
  py "https://nexoinmobiliario.pe/b-2".

(* ================================================================== *)
(** * Properties of the Python values *)
(* ================================================================== *)

Unset Implicit Arguments.

Module PyFacts.

Lemma decode_utf8_nil (bs : list Z) : decode_utf8 bs = Some [] -> bs = [].
Proof.
  destruct bs as [|b0 r0]; [reflexivity|].
  cbn [decode_utf8].
  repeat match goal with
         | |- context [match ?l with [] => _ | _ :: _ => _ end] =>
           is_var l; destruct l
         | |- context [if ?c then _ else _] => destruct c
         end;
    try discriminate;
    match goal with
    | |- option_map _ ?d = _ -> _ => destruct d; discriminate
    end.
Qed.

Lemma encode_latin1_some (s : pystr) (bs : list Z) :
  encode_latin1 s = Some bs -> bs = s.
Proof.
  unfold encode_latin1. destruct (forallb (in_range 0 255) s); congruence.
Qed.

Lemma dropwhile_In (p : codepoint -> bool) (s : pystr) (c : codepoint) :
  In c s -> p c = false -> In c (dropwhile p s).
Proof.
  induction s as [|a s IH]; simpl; [tauto|].
  intros [->|Hin] Hp.
  - rewrite Hp. now left.
  - destruct (p a); [auto | now right].
Qed.

Lemma strip_In (s : pystr) (c : codepoint) :
  In c s -> isspace c = false -> In c (strip s).
Proof.
  intros Hin Hc. unfold strip.
  apply in_rev. rewrite rev_involutive.
  apply dropwhile_In; [|assumption].
  apply -> in_rev. now apply dropwhile_In.
Qed.

Lemma existsb_eqb_In (c : codepoint) (s : pystr) :
  existsb (Z.eqb c) s = true <-> In c s.
Proof.
  rewrite existsb_exists. split.
  - intros (x & Hin & Heq). apply Z.eqb_eq in Heq. now subst.
  - intros Hin. exists c. split; [assumption | apply Z.eqb_refl].
Qed.

Lemma has_char_app (x : codepoint) (a b : pystr) :
  has_char x (a ++ b) = has_char x a || has_char x b.
Proof. apply existsb_app. Qed.

Lemma has_char_cons (x y : codepoint) (b : pystr) :
  has_char x (y :: b) = (x =? y) || has_char x b.
Proof. reflexivity. Qed.

Lemma replace_char_mid (c d y : codepoint) (a b : pystr) :
  replace_char c d (a ++ y :: b) =
  replace_char c d a ++ (if y =? c then d else y) :: replace_char c d b.
Proof. unfold replace_char. now rewrite map_app. Qed.

Lemma remove_char_mid (c y : codepoint) (a b : pystr) :
  remove_char c (a ++ y :: b) =
  remove_char c a ++ (if y =? c then [] else [y]) ++ remove_char c b.
Proof.
  unfold remove_char. rewrite filter_app. cbn [filter].
  now destruct (y =? c).
Qed.

Lemma str_eqb_eq (a b : pystr) : str_eqb a b = true <-> a = b.
Proof.
  unfold str_eqb. destruct (list_eq_dec Z.eq_dec a b); split; congruence.
Qed.

Lemma takewhile_dropwhile (p : codepoint -> bool) (s : pystr) :
  takewhile p s ++ dropwhile p s = s.
Proof.
  induction s as [|c s IH]; simpl; [reflexivity|].
  destruct (p c); simpl; congruence.
Qed.

Lemma takewhile_all (p : codepoint -> bool) (s : pystr) :
  forallb p (takewhile p s) = true.
Proof.
  induction s as [|c s IH]; simpl; [reflexivity|].
  destruct (p c) eqn:E; simpl; [now rewrite E|reflexivity].
Qed.

Lemma takewhile_id (p : codepoint -> bool) (s : pystr) :
  forallb p s = true -> takewhile p s = s /\ dropwhile p s = [].
Proof.
  induction s as [|c s IH]; simpl; [auto|].
  intros H. apply andb_prop in H as [-> H]. destruct (IH H). split; congruence.
Qed.

Section Digits.
Context `{UnicodeData}.

Lemma digits_value_some (s : pystr) :
  forall acc, forallb isdecimal s = true ->
              exists n, digits_value acc s = Some n.
Proof.
  induction s as [|c s IH]; simpl; intros acc Hs.
  - now exists acc.
  - apply andb_prop in Hs as [Hc Hs]. unfold isdecimal in Hc.
    destruct (todecimal c); [now apply IH | discriminate].
Qed.

Lemma digits_value_all (s : pystr) :
  forall acc n, digits_value acc s = Some n -> forallb isdecimal s = true.
Proof.
  induction s as [|c s IH]; simpl; intros acc n Hn; [reflexivity|].
  unfold isdecimal at 1. destruct (todecimal c); [|discriminate].
  simpl. eauto.
Qed.

(** [int] on a run of digits: the limit decides. *)
Lemma py_int_outcome (s : pystr) :
  s <> [] -> forallb isdecimal s = true ->
  if (int_max_str_digits <? List.length s)%nat
  then py_int s = Raise (int_limit_error (List.length s))
  else exists n, py_int s = Ok n.
Proof.
  intros Hne Hs. unfold py_int.
  destruct (takewhile_id _ _ Hs) as [-> _].
  destruct (digits_value_some s 0 Hs) as [n ->].
  destruct s; [congruence|].
  destruct (int_max_str_digits <? _)%nat; eauto.
Qed.

Lemma py_int_digits (s : pystr) :
  s <> [] -> forallb isdecimal s = true ->
  (List.length s <= int_max_str_digits)%nat ->
  exists n, py_int s = Ok n.
Proof.
  intros Hne Hs Hl. pose proof (py_int_outcome s Hne Hs) as Ho.
  destruct (Nat.ltb_spec int_max_str_digits (List.length s)); [lia | exact Ho].
Qed.

Lemma py_int_raises (s : pystr) (e : pyexn) :
  s <> [] -> forallb isdecimal s = true -> py_int s = Raise e ->
  (int_max_str_digits < List.length s)%nat /\
  e = int_limit_error (List.length s).
Proof.
  intros Hne Hs He. pose proof (py_int_outcome s Hne Hs) as Ho.
  destruct (Nat.ltb_spec int_max_str_digits (List.length s)) as [Hlt|Hge].
  - split; [exact Hlt | congruence].
  - destruct Ho as [n Hn]. congruence.
Qed.

Lemma py_int_nonneg (s : pystr) (n : Z) : py_int s = Ok n -> 0 <= n.
Proof.
  unfold py_int. destruct s; [discriminate|].
  destruct (int_max_str_digits <? _)%nat; [discriminate|].
  destruct (digits_value 0 _); [|discriminate].
  intros [= <-]. lia.
Qed.

Lemma py_float_nonneg (s : pystr) (q : Q) : py_float s = Some q -> (0 <= q)%Q.
Proof.
  unfold py_float.
  destruct (takewhile not_dot s ++ tl (dropwhile not_dot s)); [discriminate|].
  destruct (digits_value 0 _) as [n|]; [|discriminate].
  intros [= <-]. unfold Qle. simpl. lia.
Qed.

(** On a run of digits with no period, [float] is the integer they
    denote. *)
Lemma py_float_digits (s : pystr) :
  s <> [] -> forallb isdecimal s = true ->
  exists n, digits_value 0 s = Some n /\ py_float s = Some (inject_Z (Z.of_N n)).
Proof.
  intros Hne Hs.
  assert (Hnd : forallb not_dot s = true).
  { apply forallb_forall. intros c Hc.
    rewrite forallb_forall in Hs. specialize (Hs c Hc).
    unfold not_dot, dot. destruct (Z.eqb_spec c 0x2E) as [->|]; [|reflexivity].
    unfold isdecimal, todecimal in Hs. simpl in Hs. discriminate. }
  destruct (takewhile_id _ _ Hnd) as [Ht Hd].
  destruct (digits_value_some s 0 Hs) as [n Hn].
  exists n. split; [assumption|].
  unfold py_float. rewrite Ht, Hd. simpl tl. rewrite app_nil_r.
  destruct s; [congruence|]. now rewrite Hn.
Qed.

End Digits.

End PyFacts.
Import PyFacts.

(* ================================================================== *)
(** * Properties of the matcher *)
(* ================================================================== *)

Module ReFacts.

Lemma group_In (n : string) (g : groups) (v : pystr) :
  group n g = Some v -> In (n, v) g.
Proof.
  induction g as [|[m w] g IH]; simpl; [discriminate|].
  destruct (String.eqb_spec n m) as [->|].
  - intros [= ->]. now left.
  - intros Hg. right. auto.
Qed.

Lemma group_bound (n : string) (g : groups) :
  In n (map fst g) -> exists v, group n g = Some v.
Proof.
  induction g as [|[m w] g IH]; simpl; [tauto|].
  destruct (String.eqb_spec n m) as [->|Hne]; [eauto|].
  intros [E|Hin]; [congruence | auto].
Qed.

Lemma firstn_consumed (s1 s2 : pystr) :
  firstn (List.length (s1 ++ s2) - List.length s2) (s1 ++ s2) = s1.
Proof.
  rewrite length_app, Nat.add_sub.
  rewrite firstn_app, Nat.sub_diag, firstn_all. simpl. apply app_nil_r.
Qed.

Section Sound.
Variable A : Type.

Lemma rep_greedy_sound (p : codepoint -> bool) (s : pystr)
      (k : pystr -> option A) (a : A) :
  rep_greedy p s k = Some a ->
  exists s1 s2, s = s1 ++ s2 /\ forallb p s1 = true /\ k s2 = Some a.
Proof.
  induction s as [|c s IH]; simpl.
  - intros Hk. now exists [], [].
  - destruct (p c) eqn:Hp.
    + destruct (rep_greedy p s k) as [a'|] eqn:Hr.
      * intros [= ->]. destruct (IH eq_refl) as (s1 & s2 & -> & Hs1 & Hk).
        exists (c :: s1), s2. simpl. now rewrite Hp, Hs1.
      * intros Hk. now exists [], (c :: s).
    + intros Hk. now exists [], (c :: s).
Qed.

Lemma rep_lazy_sound (p : codepoint -> bool) (s : pystr)
      (k : pystr -> option A) (a : A) :
  rep_lazy p s k = Some a ->
  exists s1 s2, s = s1 ++ s2 /\ forallb p s1 = true /\ k s2 = Some a.
Proof.
  induction s as [|c s IH]; simpl.
  - destruct (k []) eqn:Hk; [|discriminate].
    intros [= ->]. now exists [], [].
  - destruct (k (c :: s)) eqn:Hk.
    + intros [= ->]. now exists [], (c :: s).
    + destruct (p c) eqn:Hp; [|discriminate].
      intros Hr. destruct (IH Hr) as (s1 & s2 & -> & Hs1 & Hk2).
      exists (c :: s1), s2. simpl. now rewrite Hp, Hs1.
Qed.

Variable Inv : string -> pystr -> Prop.

(** A successful match consumed a text of the language of the pattern,
    bound groups that satisfy the invariant, among them every group of
    [binds], and then the continuation succeeded. *)
Lemma rmatch_sound (r : regex) :
  respects Inv r ->
  forall (s : pystr) (g : groups) (k : pystr -> groups -> option A) (a : A),
    rmatch r s g k = Some a ->
    exists s1 s2 d,
      s = s1 ++ s2 /\ lang r s1 /\ groups_ok Inv d /\
      incl (binds r) (map fst d) /\ k s2 (d ++ g) = Some a.
Proof.
  induction r as [|p|r1 IH1 r2 IH2|r1 IH1 r2 IH2|p|p|name r1 IH1];
    simpl; intros Hr s g k a Hm.
  - exists [], s, []. repeat split; auto using incl_nil_l.
    intros n v [].
  - destruct s as [|c s]; [discriminate|].
    destruct (p c) eqn:Hp; [|discriminate].
    exists [c], s, []. repeat split; eauto using incl_nil_l.
    intros n v [].
  - destruct Hr as [Hr1 Hr2].
    apply (IH1 Hr1) in Hm as (s1 & s2 & d1 & -> & L1 & G1 & B1 & Hm).
    apply (IH2 Hr2) in Hm as (s3 & s4 & d2 & -> & L2 & G2 & B2 & Hm).
    exists (s1 ++ s3), s4, (d2 ++ d1). rewrite <- !app_assoc.
    repeat split; eauto.
    + intros n v Hin. apply in_app_or in Hin as [Hin|Hin]; eauto.
    + rewrite map_app. apply incl_app.
      * now apply incl_appl.
      * now apply incl_appr.
  - destruct Hr as [Hr1 Hr2].
    destruct (rmatch r1 s g k) as [a'|] eqn:E1.
    + injection Hm as ->.
      apply (IH1 Hr1) in E1 as (s1 & s2 & d & -> & L & G & _ & Hk).
      exists s1, s2, d. repeat split; auto using incl_nil_l.
    + apply (IH2 Hr2) in Hm as (s1 & s2 & d & -> & L & G & _ & Hk).
      exists s1, s2, d. repeat split; auto using incl_nil_l.
  - apply rep_greedy_sound in Hm as (s1 & s2 & -> & L & Hk).
    exists s1, s2, []. repeat split; auto using incl_nil_l.
    intros n v [].
  - apply rep_lazy_sound in Hm as (s1 & s2 & -> & L & Hk).
    exists s1, s2, []. repeat split; auto using incl_nil_l.
    intros n v [].
  - destruct Hr as [Hn Hr1].
    apply (IH1 Hr1) in Hm as (s1 & s2 & d & -> & L & G & B & Hk).
    rewrite firstn_consumed in Hk.
    exists s1, s2, ((name, s1) :: d). repeat split; auto.
    + intros n v [[= <- <-]|Hin]; auto.
    + simpl. intros n [<-|Hin]; [now left | right; auto].
Qed.

End Sound.

Section SearchSound.
Variable Inv : string -> pystr -> Prop.

Lemma match_here_sound (r : regex) (s : pystr) (g : groups) :
  respects Inv r -> match_here r s = Some g ->
  groups_ok Inv g /\ incl (binds r) (map fst g) /\
  exists s1 s2, s = s1 ++ s2 /\ lang r s1.
Proof.
  intros Hr Hm. unfold match_here in Hm.
  apply (@rmatch_sound _ Inv _ Hr) in Hm as (s1 & s2 & d & -> & L & G & B & [= <-]).
  rewrite app_nil_r. eauto 6.
Qed.

Lemma search_sound (r : regex) (s : pystr) (g : groups) :
  respects Inv r -> search r s = Some g ->
  groups_ok Inv g /\ incl (binds r) (map fst g) /\
  exists s0 s1 s2, s = s0 ++ s1 ++ s2 /\ lang r s1.
Proof.
  intros Hr. induction s as [|c s IH]; simpl.
  - destruct (match_here r []) as [g'|] eqn:E; [|discriminate].
    intros [= ->].
    apply match_here_sound in E as (G & B & s1 & s2 & Hs & L); [|exact Hr].
    repeat split; auto. now exists [], s1, s2.
  - destruct (match_here r (c :: s)) as [g'|] eqn:E.
    + intros [= ->].
      apply match_here_sound in E as (G & B & s1 & s2 & Hs & L); [|exact Hr].
      repeat split; auto. now exists [], s1, s2.
    + intros Hs. destruct (IH Hs) as (G & B & s0 & s1 & s2 & -> & L).
      repeat split; auto. now exists (c :: s0), s1, s2.
Qed.

Lemma respects_seqs (l : list regex) :
  Forall (respects Inv) l -> respects Inv (seqs l).
Proof.
  induction 1 as [|r l Hr Hl IH]; simpl; [exact I|].
  destruct l; [assumption | now split].
Qed.

Lemma respects_lit_i (s : pystr) : respects Inv (lit_i s).
Proof.
  apply respects_seqs, Forall_forall. intros r Hin.
  apply in_map_iff in Hin as (c & <- & _). exact I.
Qed.

End SearchSound.

Lemma lang_Plus (p : codepoint -> bool) (s : pystr) :
  lang (Plus p) s -> s <> [] /\ forallb p s = true.
Proof.
  simpl. intros (s1 & s2 & -> & (c & -> & Hc) & Hs).
  split; [discriminate|]. simpl. now rewrite Hc, Hs.
Qed.

(** With a continuation that never fails, a greedy repetition stops at the
    first character outside the class. *)
Lemma rep_greedy_total (A : Type) (p : codepoint -> bool)
      (k : pystr -> option A) (s : pystr) :
  (forall s', k s' <> None) -> rep_greedy p s k = k (dropwhile p s).
Proof.
  intros Hk. induction s as [|c s IH]; simpl; [reflexivity|].
  destruct (p c); [|reflexivity].
  rewrite IH. destruct (k (dropwhile p s)) eqn:E; [reflexivity|].
  now apply Hk in E.
Qed.

End ReFacts.
Import ReFacts.

(* ================================================================== *)
(** * The groups of a match are pieces of the text *)
(* ================================================================== *)

Module GroupFacts.

Section Infix.
Variable A : Type.

Lemma infix_app_l (v s t : pystr) : infix v s -> infix v (s ++ t).
Proof.
  intros (a & b & ->). exists a, (b ++ t). now rewrite <- !app_assoc.
Qed.

Lemma infix_app_r (v s t : pystr) : infix v t -> infix v (s ++ t).
Proof.
  intros (a & b & ->). exists (s ++ a), b. now rewrite <- !app_assoc.
Qed.

Lemma rmatch_groups_infix (r : regex) :
  forall (s : pystr) (g : groups) (k : pystr -> groups -> option A) (a : A),
    rmatch r s g k = Some a ->
    exists s1 s2 d,
      s = s1 ++ s2 /\ groups_in s1 d /\ k s2 (d ++ g) = Some a.
Proof.
  induction r as [|p|r1 IH1 r2 IH2|r1 IH1 r2 IH2|p|p|name r1 IH1];
    cbn [rmatch]; intros s g k a Hm.
  - exists [], s, []. repeat split; auto. intros n v [].
  - destruct s as [|c s]; [discriminate|].
    destruct (p c); [|discriminate].
    exists [c], s, []. repeat split; auto. intros n v [].
  - apply IH1 in Hm as (s1 & s2 & d1 & -> & G1 & Hm).
    apply IH2 in Hm as (s3 & s4 & d2 & -> & G2 & Hm).
    exists (s1 ++ s3), s4, (d2 ++ d1). rewrite <- !app_assoc.
    repeat split; auto.
    intros n v Hin. apply in_app_or in Hin as [Hin|Hin].
    + apply infix_app_r. eauto.
    + apply infix_app_l. eauto.
  - destruct (rmatch r1 s g k) as [a'|] eqn:E1.
    + injection Hm as ->. now apply IH1 in E1.
    + now apply IH2 in Hm.
  - apply rep_greedy_sound in Hm as (s1 & s2 & -> & _ & Hk).
    exists s1, s2, []. repeat split; auto. intros n v [].
  - apply rep_lazy_sound in Hm as (s1 & s2 & -> & _ & Hk).
    exists s1, s2, []. repeat split; auto. intros n v [].
  - apply IH1 in Hm as (s1 & s2 & d & -> & G & Hk).
    rewrite firstn_consumed in Hk.
    exists s1, s2, ((name, s1) :: d). repeat split; auto.
    intros n v [[= <- <-]|Hin]; [|eauto].
    exists [], []. now rewrite app_nil_r.
Qed.

End Infix.

Lemma search_groups_infix (r : regex) (s : pystr) (g : groups) :
  search r s = Some g -> groups_in s g.
Proof.
  induction s as [|c s IH]; cbn [search]; unfold match_here.
  - destruct (rmatch r [] [] _) as [g'|] eqn:E; [|discriminate].
    intros [= ->].
    apply rmatch_groups_infix in E as (s1 & s2 & d & Hs & G & [= <-]).
    rewrite app_nil_r. intros n v Hin. rewrite Hs. apply infix_app_l. eauto.
  - destruct (rmatch r (c :: s) [] _) as [g'|] eqn:E.
    + intros [= ->].
      apply rmatch_groups_infix in E as (s1 & s2 & d & Hs & G & [= <-]).
      rewrite app_nil_r. intros n v Hin. rewrite Hs. apply infix_app_l. eauto.
    + intros Hs n v Hin.
      apply (infix_app_r v [c] s). eapply IH; eauto.
Qed.

Lemma infix_length (v s : pystr) :
  infix v s -> (List.length v <= List.length s)%nat.
Proof. intros (a & b & ->). rewrite !length_app. lia. Qed.

End GroupFacts.
Import GroupFacts.

(* ================================================================== *)
(** * Properties of core/utils.py *)
(* ================================================================== *)

Module UtilsFacts.

Lemma sub_spaces_In (s : pystr) (c : codepoint) :
  In c s -> isspace c = false -> forall b, In c (sub_spaces b s).
Proof.
  induction s as [|a s IH]; simpl; [tauto|].
  intros [->|Hin] Hc b.
  - rewrite Hc. now left.
  - destruct (isspace a); [destruct b|]; simpl; auto.
Qed.

Lemma clean_text_nonempty (s : pystr) (c : codepoint) :
  In c s -> isspace c = false -> clean_text s <> [].
Proof.
  intros Hin Hc E.
  assert (Hc' : In c (clean_text s))
    by (apply strip_In; [apply sub_spaces_In|]; assumption).
  rewrite E in Hc'. exact Hc'.
Qed.

Lemma fix_mojibake_nonempty (s : pystr) : s <> [] -> fix_mojibake s <> [].
Proof.
  intros Hs. unfold fix_mojibake, latin1_utf8.
  destruct s as [|c s]; [congruence|].
  destruct (encode_latin1 (c :: s)) as [bs|] eqn:E; [|discriminate].
  apply encode_latin1_some in E. subst bs.
  destruct (decode_utf8 (c :: s)) as [u|] eqn:D; [|discriminate].
  intros ->. apply decode_utf8_nil in D. discriminate.
Qed.

Section Numeric.
Context `{UnicodeData}.

Lemma money_match_here (c : codepoint) (t : pystr) :
  match_here MONEY_RE (c :: t) =
  if isdecimal c then Some [("1"%string, c :: takewhile digit_dot_comma t)]
  else None.
Proof.
  unfold match_here, MONEY_RE. cbn [rmatch]. unfold digit.
  destruct (isdecimal c); [|reflexivity].
  rewrite rep_greedy_total by discriminate.
  do 3 f_equal.
  rewrite <- (takewhile_dropwhile digit_dot_comma t) at 1 3.
  apply (firstn_consumed (c :: takewhile digit_dot_comma t)).
Qed.

Lemma money_search (t : pystr) :
  search MONEY_RE t =
  option_map (fun run => [("1"%string, run)]) (Spec.money_run t).
Proof.
  induction t as [|c t IH]; [reflexivity|].
  cbn [search Spec.money_run]. rewrite money_match_here.
  destruct (isdecimal c); [reflexivity | exact IH].
Qed.

Lemma float_match_here (c : codepoint) (t : pystr) :
  match_here FLOAT_RE (c :: t) =
  if isdecimal c then Some [("1"%string, Spec.float_run_at c t)] else None.
Proof.
  unfold match_here, FLOAT_RE, Plus, Opt. cbn [rmatch seqs]. unfold digit.
  destruct (isdecimal c); [|reflexivity].
  rewrite rep_greedy_total.
  2:{ intros s'. destruct s' as [|x s'].
      - cbn. discriminate.
      - destruct (dot_comma x); rewrite rep_greedy_total; discriminate. }
  unfold Spec.float_run_at.
  pose proof (takewhile_dropwhile isdecimal t) as Ht.
  destruct (dropwhile isdecimal t) as [|x r] eqn:Ed.
  - cbn [rep_greedy]. do 3 f_equal.
    rewrite <- Ht at 1 2.
    change (c :: takewhile isdecimal t ++ [])
      with ((c :: takewhile isdecimal t) ++ []).
    apply firstn_consumed.
  - destruct (dot_comma x).
    + rewrite rep_greedy_total by discriminate. do 3 f_equal.
      pose proof (takewhile_dropwhile isdecimal r) as Hr.
      rewrite <- Ht at 1 2. rewrite <- Hr at 1 3.
      change (c :: takewhile isdecimal t
                ++ x :: takewhile isdecimal r ++ dropwhile isdecimal r)
        with ((c :: takewhile isdecimal t)
                ++ (x :: takewhile isdecimal r) ++ dropwhile isdecimal r).
      rewrite app_assoc. apply firstn_consumed.
    + assert (Hx : isdecimal x = false).
      { clear Ht. revert Ed. induction t as [|y t IH]; simpl; [discriminate|].
        destruct (isdecimal y) eqn:Ey; [exact IH|]. now intros [= -> _]. }
      cbn [rep_greedy]. rewrite Hx. do 3 f_equal.
      rewrite <- Ht at 1 2.
      apply (firstn_consumed (c :: takewhile isdecimal t)).
Qed.

Lemma float_search (t : pystr) :
  search FLOAT_RE t =
  option_map (fun run => [("1"%string, run)]) (Spec.float_run t).
Proof.
  induction t as [|c t IH]; [reflexivity|].
  cbn [search Spec.float_run]. rewrite float_match_here.
  destruct (isdecimal c); [reflexivity | exact IH].
Qed.

(** [m.group(1)] is a string whenever the patterns match. *)
Lemma money_group_bound (t : pystr) (m : groups) :
  search MONEY_RE t = Some m -> exists num, group "1" m = Some num.
Proof.
  rewrite money_search. destruct (Spec.money_run t); [|discriminate].
  intros [= <-]. cbn. eauto.
Qed.

Lemma float_group_bound (t : pystr) (m : groups) :
  search FLOAT_RE t = Some m -> exists raw, group "1" m = Some raw.
Proof.
  rewrite float_search. destruct (Spec.float_run t); [|discriminate].
  intros [= <-]. cbn. eauto.
Qed.

(** *** Digits and separators *)

Lemma decimal_not_separator (c : codepoint) :
  isdecimal c = true -> (c =? dot) = false /\ (c =? comma) = false.
Proof.
  intros Hc. split.
  - destruct (Z.eqb_spec c dot) as [->|]; [discriminate Hc | reflexivity].
  - destruct (Z.eqb_spec c comma) as [->|]; [discriminate Hc | reflexivity].
Qed.

Lemma digits_no_char (s : pystr) (x : codepoint) :
  forallb isdecimal s = true -> x = dot \/ x = comma -> has_char x s = false.
Proof.
  intros Hs Hx. unfold has_char.
  destruct (existsb (Z.eqb x) s) eqn:E; [|reflexivity].
  apply existsb_eqb_In in E.
  rewrite forallb_forall in Hs. apply Hs, decimal_not_separator in E.
  destruct E as [Ed Ec], Hx as [-> | ->];
    [rewrite Z.eqb_refl in Ed | rewrite Z.eqb_refl in Ec]; discriminate.
Qed.

Lemma digits_remove_char (s : pystr) (x : codepoint) :
  forallb isdecimal s = true -> x = dot \/ x = comma -> remove_char x s = s.
Proof.
  intros Hs Hx. unfold remove_char.
  rewrite forallb_forall in Hs.
  induction s as [|c s IH]; [reflexivity|]. cbn [filter].
  destruct (decimal_not_separator c (Hs c (or_introl eq_refl))) as [Ed Ec].
  assert (E : (c =? x) = false) by (destruct Hx as [-> | ->]; assumption).
  rewrite E. cbn [negb]. f_equal. apply IH. intros y Hy. apply Hs. now right.
Qed.

Lemma digits_number (s : pystr) :
  forall acc n,
    digits_value acc s = Some n ->
    fold_left
      (fun a c => a * 10 + match todecimal c with Some d => d | None => 0 end)%N
      s acc = n.
Proof.
  induction s as [|c s IH]; cbn [digits_value fold_left]; intros acc n Hn.
  - congruence.
  - destruct (todecimal c); [now apply IH | discriminate].
Qed.

Lemma py_float_run_of_digits (s : pystr) :
  s <> [] -> forallb isdecimal s = true ->
  py_float s = Some (inject_Z (Z.of_N (Spec.number s))).
Proof.
  intros Hne Hs. destruct (py_float_digits s Hne Hs) as (n & Hn & ->).
  unfold Spec.number. now rewrite (digits_number s 0%N n Hn).
Qed.

Lemma takewhile_app_stop (p : codepoint -> bool) (a : pystr) (x : codepoint)
      (b : pystr) :
  forallb p a = true -> p x = false ->
  takewhile p (a ++ x :: b) = a /\ dropwhile p (a ++ x :: b) = x :: b.
Proof.
  intros Ha Hx. induction a as [|c a IH]; cbn.
  - now rewrite Hx.
  - cbn in Ha. apply andb_prop in Ha as [Hc Ha]. rewrite Hc.
    destruct (IH Ha) as [-> ->]. now split.
Qed.

(** [float] of [digits . digits]. *)
Lemma py_float_decimal (ip fp : pystr) :
  ip <> [] -> forallb isdecimal ip = true -> forallb isdecimal fp = true ->
  py_float (ip ++ dot :: fp) =
  Some (Z.of_N (Spec.number (ip ++ fp)) # pow10 (List.length fp)).
Proof.
  intros Hne Hi Hf.
  assert (Hnd : forallb not_dot ip = true).
  { apply forallb_forall. intros c Hc. rewrite forallb_forall in Hi.
    unfold not_dot. now destruct (decimal_not_separator c (Hi c Hc)) as [-> _]. }
  assert (Hd : not_dot dot = false) by reflexivity.
  destruct (takewhile_app_stop not_dot ip dot fp Hnd Hd) as [Ht Hdr].
  unfold py_float. rewrite Ht, Hdr. cbn [tl].
  assert (Hall : forallb isdecimal (ip ++ fp) = true)
    by (rewrite forallb_app, Hi, Hf; reflexivity).
  destruct (digits_value_some (ip ++ fp) 0%N Hall) as [n Hn].
  assert (Hnum : Spec.number (ip ++ fp) = n) by now apply digits_number.
  rewrite Hnum. revert Hn.
  destruct (ip ++ fp) eqn:E; intros Hn.
  - destruct ip; [congruence | discriminate].
  - now rewrite Hn.
Qed.

(** *** The runs of the specification *)

Lemma money_run_none (t : pystr) :
  Spec.money_run t = None <->
  forallb (fun c => negb (isdecimal c)) t = true.
Proof.
  induction t as [|c t IH]; cbn; [tauto|].
  destruct (isdecimal c); cbn; [split; discriminate | exact IH].
Qed.

Lemma float_run_none (t : pystr) :
  Spec.float_run t = None <->
  forallb (fun c => negb (isdecimal c)) t = true.
Proof.
  induction t as [|c t IH]; cbn; [tauto|].
  destruct (isdecimal c); cbn; [split; discriminate | exact IH].
Qed.

Lemma money_run_shape (t run : pystr) :
  Spec.money_run t = Some run ->
  exists c r, run = c :: r /\ isdecimal c = true /\
              forallb digit_dot_comma r = true.
Proof.
  induction t as [|c t IH]; cbn; [discriminate|].
  destruct (isdecimal c) eqn:Hc; [|exact IH].
  intros [= <-]. exists c, (takewhile digit_dot_comma t).
  repeat split; auto using takewhile_all.
Qed.

Lemma strip_separators (run : pystr) :
  remove_char comma (remove_char dot run) =
  filter (fun c => negb (dot_comma c)) run.
Proof.
  unfold remove_char, dot_comma.
  induction run as [|c run IH]; [reflexivity|]. cbn [filter].
  destruct (c =? dot); cbn [negb orb filter]; [exact IH|].
  destruct (c =? comma); cbn [negb]; [exact IH | now rewrite IH].
Qed.

Lemma strip_separators_digits (r : pystr) :
  forallb digit_dot_comma r = true ->
  forallb isdecimal (filter (fun c => negb (dot_comma c)) r) = true.
Proof.
  induction r as [|c r IH]; [reflexivity|]. cbn [forallb filter].
  intros Hr. apply andb_prop in Hr as [Hc Hr].
  unfold digit_dot_comma in Hc. unfold dot_comma at 1.
  destruct (c =? dot); cbn [orb negb]; [auto|].
  destruct (c =? comma); cbn [orb negb]; [auto|].
  rewrite !orb_false_r in Hc. cbn [forallb]. now rewrite Hc, IH.
Qed.

(** The text that [float] receives from a run: the integer digits, then a
    period and the fraction digits when the run has a separator. *)
Lemma float_run_normalized (t run : pystr) :
  Spec.float_run t = Some run ->
  exists ip fp,
    ip <> [] /\ forallb isdecimal ip = true /\ forallb isdecimal fp = true /\
    let raw := if has_char comma run && negb (has_char dot run)
               then replace_char comma dot run
               else remove_char comma run in
    (run = ip /\ fp = [] /\ raw = ip) \/
    (exists sep, dot_comma sep = true /\ run = ip ++ sep :: fp /\
                 raw = ip ++ dot :: fp).
Proof.
  induction t as [|c t IH]; cbn [Spec.float_run]; [discriminate|].
  destruct (isdecimal c) eqn:Hc; [|exact IH].
  intros [= <-]. unfold Spec.float_run_at.
  set (ip := c :: takewhile isdecimal t).
  assert (Hip : forallb isdecimal ip = true)
    by (cbn; now rewrite Hc, takewhile_all).
  assert (Hne : ip <> []) by discriminate.
  clearbody ip.
  assert (Hplain :
            (if has_char comma ip && negb (has_char dot ip)
             then replace_char comma dot ip
             else remove_char comma ip) = ip).
  { rewrite (digits_no_char ip comma Hip) by tauto. cbn [andb].
    apply digits_remove_char; tauto. }
  destruct (dropwhile isdecimal t) as [|sep r]; [exists ip, []; auto 10|].
  destruct (dot_comma sep) eqn:Hsep; [|exists ip, []; auto 10].
  exists ip, (takewhile isdecimal r).
  pose proof (takewhile_all isdecimal r) as Hfp.
  repeat split; auto. cbv zeta. right. exists sep. repeat split; auto.
  set (fp := takewhile isdecimal r) in *. clearbody fp.
  assert (Hc_ip : has_char comma ip = false) by (apply digits_no_char; tauto).
  assert (Hd_ip : has_char dot ip = false) by (apply digits_no_char; tauto).
  assert (Hc_fp : has_char comma fp = false) by (apply digits_no_char; tauto).
  assert (Hd_fp : has_char dot fp = false) by (apply digits_no_char; tauto).
  rewrite !has_char_app, !has_char_cons.
  rewrite Hc_ip, Hd_ip, Hc_fp, Hd_fp. cbn [orb]. rewrite !orb_false_r.
  assert (Hrep : forall s, forallb isdecimal s = true ->
                           replace_char comma dot s = s).
  { intros s Hs. unfold replace_char. rewrite <- (map_id s) at 2.
    apply map_ext_in. intros y Hy. rewrite forallb_forall in Hs.
    now destruct (decimal_not_separator y (Hs y Hy)) as [_ ->]. }
  rewrite replace_char_mid, remove_char_mid.
  rewrite !(digits_remove_char _ comma), !Hrep by (assumption || tauto).
  assert (Hcase : sep = dot \/ sep = comma).
  { unfold dot_comma in Hsep.
    apply orb_prop in Hsep as [E|E]; apply Z.eqb_eq in E; auto. }
  destruct Hcase as [-> | ->]; reflexivity.
Qed.

End Numeric.

End UtilsFacts.
Import UtilsFacts.

(* ================================================================== *)
(** * Properties of the card grammar *)
(* ================================================================== *)

Module ParserFacts.

Section Card.
Context `{UnicodeData}.

Lemma card_inv_digits (name : string) (s : pystr) :
  lang (Plus digit) s -> card_inv name s.
Proof. intros L _. now apply lang_Plus. Qed.

Lemma CARD_RE_respects : respects card_inv CARD_RE.
Proof.
  unfold CARD_RE. apply respects_seqs.
  repeat apply Forall_cons; try apply Forall_nil;
    cbn [respects Opt Plus LazyPlus seqs];
    repeat match goal with
           | |- _ /\ _ => split
           | |- True => exact I
           | |- respects _ (lit_i _) => apply respects_lit_i
           | |- forall s, lang (Plus digit) s -> _ =>
             intros s; apply card_inv_digits
           | |- forall s, lang _ s -> card_inv _ s =>
             intros s _ E; cbv in E; discriminate E
           end.
Qed.

Lemma CARD_RE_binds :
  incl ["unidades"; "moneda"; "precio"; "modelo"; "area"; "piso_min";
        "dorms"; "banos"]%string (binds CARD_RE).
Proof.
  assert (B : forall s, binds (lit_i s) = []).
  { intros s. unfold lit_i. induction s as [|c [|d s] IH]; try reflexivity.
    cbn [map seqs binds] in *. now rewrite IH. }
  unfold CARD_RE. cbn [seqs binds Opt Plus LazyPlus]. rewrite !B. cbn [app].
  intros n Hn. cbn [In] in *. intuition auto.
Qed.

(** A digit group of a match is bound to a non-empty run of digits of the
    text, so [int()] reads it unless it is longer than the limit. *)
Lemma int_group_ok (t : pystr) (g : groups) (name : string) :
  search CARD_RE t = Some g ->
  existsb (String.eqb name) int_groups = true ->
  match group name g with
  | Some v =>
    (List.length v <= List.length t)%nat /\
    if (int_max_str_digits <? List.length v)%nat
    then int_if_set (Some v) = Raise (int_limit_error (List.length v))
    else exists n, int_if_set (Some v) = Ok (Some n)
  | None => True
  end.
Proof.
  intros Hs Hn.
  destruct (search_sound card_inv CARD_RE t g CARD_RE_respects Hs) as (G & _ & _).
  pose proof (search_groups_infix CARD_RE t g Hs) as Gi.
  destruct (group name g) as [v|] eqn:E; [|exact I].
  apply group_In in E. split; [exact (infix_length v t (Gi _ _ E))|].
  apply G in E. destruct (E Hn) as [Hne Hd].
  pose proof (py_int_outcome v Hne Hd) as Ho.
  destruct v as [|c v]; [congruence|]. cbn [int_if_set].
  destruct (int_max_str_digits <? _)%nat.
  - now rewrite Ho.
  - destruct Ho as [n ->]. now exists n.
Qed.

Lemma int_group_bound (t : pystr) (g : groups) (name : string) :
  search CARD_RE t = Some g ->
  existsb (String.eqb name) int_groups = true ->
  In name (binds CARD_RE) ->
  exists v, group name g = Some v /\ truthy (Some v) = true /\
            (List.length v <= List.length t)%nat /\
            if (int_max_str_digits <? List.length v)%nat
            then int_if_set (Some v) = Raise (int_limit_error (List.length v))
            else exists n, int_if_set (Some v) = Ok (Some n).
Proof.
  intros Hs Hn Hb.
  destruct (search_sound card_inv CARD_RE t g CARD_RE_respects Hs) as (G & B & _).
  destruct (group_bound name g (B _ Hb)) as [v E].
  pose proof (int_group_ok t g name Hs Hn) as Hi. rewrite E in Hi.
  destruct Hi as [Hl Hi]. exists v. repeat split; auto.
  apply group_In, G in E. destruct (E Hn) as [Hne _].
  destruct v; [congruence | reflexivity].
Qed.

(** The record that [parse_card_text] returns when the grammar matches with
    the groups [g]. *)
Lemma parse_card_text_matched (txt : pystr) (g : groups) (t : Tipologia) :
  search CARD_RE (fix_mojibake (clean_text txt)) = Some g ->
  parse_card_text txt = Ok t ->
  exists u lo hi d b,
    int_if_set (group "unidades" g) = Ok (Some u) /\
    int_if_set (group "piso_min" g) = Ok (Some lo) /\
    match group "piso_max" g with
    | Some v => int_if_set (Some v) = Ok (Some hi)
    | None => hi = lo
    end /\
    int_if_set (group "dorms" g) = Ok (Some d) /\
    int_if_set (group "banos" g) = Ok (Some b) /\
    t = {| modelo := if truthy (group "modelo" g)
                     then fstr (group "modelo" g) else [];
           area_m2 := parse_float (group "area" g);
           precio_desde :=
             parse_money_to_float
               (Some (fstr (group "moneda" g) ++ py " "
                        ++ fstr (group "precio" g)));
           moneda := group "moneda" g;
           unidades_disponibles := Some u;
           piso_min := Some lo;
           piso_max := Some hi;
           dormitorios := Some d;
           banos := Some b;
           raw := Some (fix_mojibake (clean_text txt));
           parse_ok := true |}.
Proof.
  intros Hs Ht.
  pose proof CARD_RE_binds as B.
  destruct (int_group_bound _ g "unidades" Hs eq_refl) as (vu & Eu & _ & _ & Iu);
    [apply B; cbn; tauto|].
  destruct (int_group_bound _ g "piso_min" Hs eq_refl) as (vl & El & _ & _ & Il);
    [apply B; cbn; tauto|].
  destruct (int_group_bound _ g "dorms" Hs eq_refl) as (vd & Ed & _ & _ & Id);
    [apply B; cbn; tauto|].
  destruct (int_group_bound _ g "banos" Hs eq_refl) as (vb & Eb & _ & _ & Ib);
    [apply B; cbn; tauto|].
  pose proof (int_group_ok _ g "piso_max" Hs eq_refl) as Ih.
  unfold parse_card_text in Ht. rewrite Hs, Eu, El, Ed, Eb in Ht.
  rewrite Eu, El, Ed, Eb.
  destruct (int_max_str_digits <? List.length vl)%nat;
    [rewrite Il in Ht; discriminate Ht|].
  destruct Il as [lo Il]. rewrite Il in Ht. cbn [bind] in Ht.
  assert (Hhi : exists hi,
             match group "piso_max" g with
             | Some v => int_if_set (Some v) = Ok (Some hi)
             | None => hi = lo
             end /\
             (if truthy (group "piso_max" g)
              then int_if_set (group "piso_max" g)
              else Ok (Some lo)) = Ok (Some hi)).
  { destruct (group "piso_max" g) as [v|].
    - destruct Ih as [_ Ih].
      destruct (int_max_str_digits <? List.length v)%nat.
      + exfalso. destruct v; [discriminate Ih|].
        cbn [truthy] in Ht. rewrite Ih in Ht. discriminate Ht.
      + destruct Ih as [hi Ih]. exists hi. split; [assumption|].
        destruct v; [discriminate Ih | exact Ih].
    - exists lo. now split. }
  destruct Hhi as (hi & Hhi & Ehi). rewrite Ehi in Ht. cbn [bind] in Ht.
  destruct (int_max_str_digits <? List.length vu)%nat;
    [rewrite Iu in Ht; discriminate Ht|].
  destruct Iu as [u Iu]. rewrite Iu in Ht. cbn [bind] in Ht.
  destruct (int_max_str_digits <? List.length vd)%nat;
    [rewrite Id in Ht; discriminate Ht|].
  destruct Id as [d Id]. rewrite Id in Ht. cbn [bind] in Ht.
  destruct (int_max_str_digits <? List.length vb)%nat;
    [rewrite Ib in Ht; discriminate Ht|].
  destruct Ib as [b Ib]. rewrite Ib in Ht. cbn [bind] in Ht.
  injection Ht as <-.
  exists u, lo, hi, d, b. auto 10.
Qed.

(** [parse_card_text] returns a record, or raises the [ValueError] of [int]
    on a digit group of the text that is longer than the limit. *)
Lemma parse_card_text_outcome (txt : pystr) :
  (exists t, parse_card_text txt = Ok t) \/
  (exists n,
      (int_max_str_digits < n)%nat /\
      (n <= List.length (fix_mojibake (clean_text txt)))%nat /\
      parse_card_text txt = Raise (int_limit_error n)).
Proof.
  destruct (search CARD_RE (fix_mojibake (clean_text txt))) as [g|] eqn:Hs.
  2:{ left. unfold parse_card_text. rewrite Hs. eauto. }
  pose proof CARD_RE_binds as B.
  destruct (int_group_bound _ g "unidades" Hs eq_refl) as (vu & Eu & _ & Lu & Iu);
    [apply B; cbn; tauto|].
  destruct (int_group_bound _ g "piso_min" Hs eq_refl) as (vl & El & _ & Ll & Il);
    [apply B; cbn; tauto|].
  destruct (int_group_bound _ g "dorms" Hs eq_refl) as (vd & Ed & _ & Ld & Id);
    [apply B; cbn; tauto|].
  destruct (int_group_bound _ g "banos" Hs eq_refl) as (vb & Eb & _ & Lb & Ib);
    [apply B; cbn; tauto|].
  pose proof (int_group_ok _ g "piso_max" Hs eq_refl) as Ih.
  unfold parse_card_text. rewrite Hs, Eu, El, Ed, Eb.
  destruct (Nat.ltb_spec int_max_str_digits (List.length vl)) as [Hl|_].
  { right. exists (List.length vl). rewrite Il. cbn [bind]. auto. }
  destruct Il as [lo ->]. cbn [bind].
  assert (Hhi : (exists hi,
                    (if truthy (group "piso_max" g)
                     then int_if_set (group "piso_max" g)
                     else Ok (Some lo)) = Ok hi) \/
                (exists n,
                    (int_max_str_digits < n)%nat /\
                    (n <= List.length (fix_mojibake (clean_text txt)))%nat /\
                    (if truthy (group "piso_max" g)
                     then int_if_set (group "piso_max" g)
                     else Ok (Some lo)) = Raise (int_limit_error n))).
  { destruct (group "piso_max" g) as [v|]; [|left; cbn; eauto].
    destruct Ih as [Lh Ih].
    destruct (truthy (Some v)); [|left; eauto].
    destruct (Nat.ltb_spec int_max_str_digits (List.length v)) as [Hl|_].
    - right. exists (List.length v). auto.
    - destruct Ih as [hi ->]. left. eauto. }
  destruct Hhi as [[hi ->]|(n & H1 & H2 & ->)];
    [|right; exists n; cbn [bind]; auto].
  cbn [bind].
  destruct (Nat.ltb_spec int_max_str_digits (List.length vu)) as [Hl|_].
  { right. exists (List.length vu). rewrite Iu. cbn [bind]. auto. }
  destruct Iu as [u ->]. cbn [bind].
  destruct (Nat.ltb_spec int_max_str_digits (List.length vd)) as [Hl|_].
  { right. exists (List.length vd). rewrite Id. cbn [bind]. auto. }
  destruct Id as [d ->]. cbn [bind].
  destruct (Nat.ltb_spec int_max_str_digits (List.length vb)) as [Hl|_].
  { right. exists (List.length vb). rewrite Ib. cbn [bind]. auto. }
  destruct Ib as [b ->]. cbn [bind]. left. eauto.
Qed.

(** [parse_card_text] returns a record on every text whose normalized form
    stays within the limit of [int]. *)
Lemma parse_card_text_returns (txt : pystr) :
  (List.length (fix_mojibake (clean_text txt)) <= int_max_str_digits)%nat ->
  exists t, parse_card_text txt = Ok t.
Proof.
  intros Hl.
  destruct (parse_card_text_outcome txt) as [Ht|(n & H1 & H2 & _)];
    [exact Ht | lia].
Qed.

(** The two outcomes of [parse_card_text] by the flag of the record. *)
Lemma parse_card_text_flag (txt : pystr) (t : Tipologia) :
  parse_card_text txt = Ok t ->
  parse_ok t =
  match search CARD_RE (fix_mojibake (clean_text txt)) with
  | Some _ => true
  | None => false
  end.
Proof.
  intros Ht.
  destruct (search CARD_RE (fix_mojibake (clean_text txt))) as [g|] eqn:Hs.
  - destruct (parse_card_text_matched txt g t Hs Ht)
      as (u & lo & hi & d & b & _ & _ & _ & _ & _ & ->).
    reflexivity.
  - unfold parse_card_text in Ht. rewrite Hs in Ht. now injection Ht as <-.
Qed.

End Card.

End ParserFacts.
Import ParserFacts.

(* ================================================================== *)
(** * Properties of the card extractor and of the project parser *)
(* ================================================================== *)

Module PageFacts.

Lemma contains_cons (needle : pystr) (c : codepoint) (hay : pystr) :
  contains needle hay = true -> contains needle (c :: hay) = true.
Proof. intros Hc. cbn [contains]. rewrite Hc. apply orb_true_r. Qed.

Lemma contains_head (a : codepoint) (p hay : pystr) :
  contains (a :: p) hay = true -> contains [a] hay = true.
Proof.
  induction hay as [|c hay IH]; cbn [contains startswith].
  - rewrite orb_false_r. discriminate.
  - intros Hc. apply orb_prop in Hc as [Hc|Hc].
    + apply andb_prop in Hc as [-> _]. reflexivity.
    + apply orb_true_iff. right. auto.
Qed.

Lemma dedupe_In (blocks : list pystr) :
  forall seen b,
    In b (dedupe seen blocks) <-> In b blocks /\ ~ In b seen.
Proof.
  induction blocks as [|a blocks IH]; intros seen b; cbn [dedupe].
  - cbn. tauto.
  - destruct (existsb (str_eqb a) seen) eqn:E.
    + rewrite IH. cbn [In].
      apply existsb_exists in E as (x & Hx & Ex). apply str_eqb_eq in Ex.
      subst x. split; [tauto|]. intros [[->|Hb] Hn]; tauto.
    + cbn [In]. rewrite IH. cbn [In].
      assert (Ha : ~ In a seen).
      { intros Hin. apply Bool.not_true_iff_false in E. apply E.
        apply existsb_exists. exists a. split; [assumption|].
        now apply str_eqb_eq. }
      destruct (list_eq_dec Z.eq_dec a b) as [->|Hne]; tauto.
Qed.

Lemma dedupe_NoDup (blocks : list pystr) :
  forall seen, NoDup (dedupe seen blocks).
Proof.
  induction blocks as [|a blocks IH]; intros seen; cbn [dedupe].
  - constructor.
  - destruct (existsb (str_eqb a) seen); [apply IH|].
    constructor; [|apply IH].
    rewrite dedupe_In. cbn [In]. tauto.
Qed.

(** The loop over the selectors ends without returning when no selector
    finds two elements, and only then. *)
Lemma first_cards_none (page : node) (sels : list selector) :
  first_cards page sels = None <->
  forall sel, In sel sels -> (List.length (select page sel) < 2)%nat.
Proof.
  induction sels as [|sel sels IH]; cbn [first_cards].
  - split; [intros _ sel [] | reflexivity].
  - destruct (Nat.leb_spec 2 (List.length (select page sel))) as [Hle|Hlt].
    + split; [discriminate|]. intros Hall.
      specialize (Hall sel (or_introl eq_refl)). lia.
    + rewrite IH. split.
      * intros Hall s [<-|Hin]; auto.
      * intros Hall s Hin. apply Hall. now right.
Qed.

(** The fallback scan: every text that it returns holds the two keywords
    and the letter m, and no text is returned twice. *)
Lemma extract_fallback (page : node) :
  first_cards page selectors = None ->
  NoDup (extract_from_soup page) /\
  forall txt, In txt (extract_from_soup page) ->
              txt <> [] /\
              contains (py "Modelo") txt = true /\
              contains (py "Desde") txt = true /\
              contains (py "m") txt = true.
Proof.
  intros Hf. unfold extract_from_soup. rewrite Hf. split.
  - apply dedupe_NoDup.
  - intros txt Hin. apply dedupe_In in Hin as [Hin _].
    apply filter_In in Hin as [_ Hk].
    apply andb_prop in Hk as [Hne Hk]. unfold keyword_block in Hk.
    apply andb_prop in Hk as [Hk Hm]. apply andb_prop in Hk as [Hmo Hd].
    repeat split; auto.
    + intros ->. discriminate Hne.
    + change (py "m") with [0x6D].
      apply orb_prop in Hm as [Hm|Hm]; [apply orb_prop in Hm as [Hm|Hm]|].
      * exact Hm.
      * exact (contains_head 0x6D [0xB2] txt Hm).
      * exact (contains_head 0x6D [0xC2; 0xB2] txt Hm).
Qed.

(** [mapM] returns one result per element, or raises what the first
    failing call raises. *)
Lemma mapM_outcome (A B : Type) (f : A -> result B) (l : list A) :
  (exists bs, mapM f l = Ok bs /\ List.length bs = List.length l) \/
  (exists a e, In a l /\ f a = Raise e /\ mapM f l = Raise e).
Proof.
  induction l as [|a l IH]; cbn [mapM].
  - left. now exists [].
  - destruct (f a) as [b|e] eqn:Ea; cbn [bind].
    + destruct IH as [(bs & -> & Hl)|(a' & e & Hin & Ha & ->)]; cbn [bind].
      * left. exists (b :: bs). cbn [List.length]. auto.
      * right. exists a', e. cbn [In]. auto.
    + right. exists a, e. cbn [In]. auto.
Qed.

Lemma mapM_length (A B : Type) (f : A -> result B) (l : list A) (bs : list B) :
  mapM f l = Ok bs -> List.length bs = List.length l.
Proof.
  intros E. destruct (mapM_outcome A B f l) as [(bs' & E' & Hl)|(a & e & _ & _ & E')];
    congruence.
Qed.

(** The constructor parses the page outside the [try] block of [parse]:
    an exception of the HTML parser leaves it as it is. *)
Lemma NexoParser_init_raises (BeautifulSoup : pystr -> result node)
      (page_html : pystr) (e : pyexn) :
  BeautifulSoup page_html = Raise e ->
  NexoParser_init BeautifulSoup page_html = Raise e.
Proof. intros He. unfold NexoParser_init. now rewrite He. Qed.

Lemma find_first_text_none (page : node) (sels : list selector) :
  (forall sel, In sel sels -> select_one page sel = None) ->
  _find_first_text page sels = None.
Proof.
  induction sels as [|sel sels IH]; cbn [_find_first_text]; intros Hall.
  - reflexivity.
  - rewrite (Hall sel (or_introl eq_refl)). apply IH.
    intros s Hs. apply Hall. now right.
Qed.

Section Project.
Context `{UnicodeData}.
Variable BeautifulSoup : pystr -> result node.

(** The parser object that the constructor builds for a page. *)
Lemma NexoParser_init_built (page_html : pystr) (self : NexoParser) :
  NexoParser_init BeautifulSoup page_html = Ok self ->
  html self = page_html /\ BeautifulSoup page_html = Ok (soup self).
Proof.
  unfold NexoParser_init.
  destruct (BeautifulSoup page_html) as [page|e]; cbn [bind];
    [|discriminate].
  intros [= <-]. auto.
Qed.

(** The fields of the project that [parse] returns. *)
Lemma parse_fields (self : NexoParser) (p : Proyecto) :
  parse BeautifulSoup self = Ok p ->
  exists page,
    BeautifulSoup (html self) = Ok page /\
    mapM parse_card_text (extract_from_soup page) = Ok (tipologias p) /\
    nombre p = normalize_if_set (_find_first_text (soup self) name_selectors) /\
    direccion p =
      normalize_if_set (_find_first_text (soup self) address_selectors) /\
    (p_moneda p, p_precio_desde p) =
    match search DESDE_RE
            (fix_mojibake (clean_text (get_text (py " ") (soup self)))) with
    | Some m =>
      (group "1" m,
       parse_money_to_float
         (Some (fstr (group "1" m) ++ py " " ++ fstr (group "2" m))))
    | None => (None, None)
    end.
Proof.
  unfold parse, parse_body, extract_card_texts.
  destruct (BeautifulSoup (html self)) as [page|e] eqn:Hp.
  - cbn [bind].
    destruct (mapM parse_card_text (extract_from_soup page)) as [tips|e] eqn:Hm.
    + destruct (search DESDE_RE _); cbn [bind try_except];
        intros [= <-]; exists page; auto.
    + destruct (search DESDE_RE _); cbn [bind try_except]; discriminate.
  - destruct (search DESDE_RE _); cbn [bind try_except]; discriminate.
Qed.

(** On a page that the HTML parser accepts, [parse] returns a project, or
    raises a [ParseError] with the message of the [ValueError] that [int]
    raised on a digit group of a card text. *)
Lemma parse_outcome (self : NexoParser) (page : node) :
  BeautifulSoup (html self) = Ok page ->
  (exists p,
      parse BeautifulSoup self = Ok p /\
      mapM parse_card_text (extract_from_soup page) = Ok (tipologias p)) \/
  (exists txt n,
      In txt (extract_from_soup page) /\
      (int_max_str_digits < n)%nat /\
      (n <= List.length (fix_mojibake (clean_text txt)))%nat /\
      parse BeautifulSoup self =
      Raise (Exception "ParseError"
               (py "Error parsing Nexo: " ++ exn_str (int_limit_error n)))).
Proof.
  intros Hpage.
  unfold parse, parse_body, extract_card_texts. rewrite Hpage. cbn [bind].
  destruct (mapM_outcome _ _ parse_card_text (extract_from_soup page))
    as [(tips & -> & _)|(txt & e & Hin & Ht & ->)].
  - left. destruct (search DESDE_RE _); cbn [bind try_except]; eauto.
  - right.
    destruct (parse_card_text_outcome txt) as [[t Hok]|(n & H1 & H2 & Hr)];
      [congruence|].
    assert (e = int_limit_error n) as -> by congruence.
    exists txt, n.
    destruct (search DESDE_RE _); cbn [bind try_except]; auto.
Qed.

(** [parse] returns when the normalized text of every card stays within the
    limit of [int]. *)
Lemma parse_returns (self : NexoParser) (page : node) :
  BeautifulSoup (html self) = Ok page ->
  (forall txt, In txt (extract_from_soup page) ->
     (List.length (fix_mojibake (clean_text txt)) <= int_max_str_digits)%nat) ->
  exists p,
    parse BeautifulSoup self = Ok p /\
    mapM parse_card_text (extract_from_soup page) = Ok (tipologias p).
Proof.
  intros Hpage Hshort.
  destruct (parse_outcome self page Hpage)
    as [Hp|(txt & n & Hin & H1 & H2 & _)]; [exact Hp|].
  specialize (Hshort txt Hin). lia.
Qed.

End Project.

End PageFacts.
Import PageFacts.

(* ================================================================== *)
(** * The tests of the repository, evaluated *)
(* ================================================================== *)

(** [tests/test_utils.py] *)
Example test_fix_mojibake : fix_mojibake (py "NÃ¡poles") = py "Nápoles".
Proof. reflexivity. Qed.

Example test_parse_money `{UnicodeData} :
  parse_money_to_float (Some (py "Desde S/ 327,550")) = Some 327550%Q.
Proof. vm_compute. reflexivity. Qed.

Example test_parse_float `{UnicodeData} :
  parse_float (Some (py "57.04 m²")) = Some 57.04%Q /\
  parse_float (Some (py "44,63 mÂ²")) = Some 44.63%Q.
Proof. split; vm_compute; reflexivity. Qed.

(** The digits are looked for after the mojibake repair: the two Latin-1
    characters U+00D9 U+00A3 hold no digit and are repaired to the
    Arabic-Indic digit three. *)
Example parse_money_repaired_digit :
  @parse_money_to_float unicode_15 (Some [0xD9; 0xA3]) = Some 3%Q.
Proof. vm_compute. reflexivity. Qed.

(** [tests/test_card_regex.py]: both cards match, with the units, floors,
    bedrooms and bathrooms that the test expects, and with a model code that
    is not the expected AX01, respectively A-209: the greedy class of the
    model code runs over the integer digits of the area. *)
Example test_parse_card_text_t1 `{UnicodeData} :
  exists r1,
    parse_card_text test_card_t1 = Ok r1 /\
    parse_ok r1 = true /\ modelo r1 = py "AX0157" /\
    area_m2 r1 = Some 4%Q /\ unidades_disponibles r1 = Some 27 /\
    piso_min r1 = Some 2 /\ piso_max r1 = Some 28 /\
    dormitorios r1 = Some 2 /\ banos r1 = Some 2.
Proof. eexists. split; [vm_compute; reflexivity|]. repeat split. Qed.

Example test_parse_card_text_t2 `{UnicodeData} :
  exists r2,
    parse_card_text test_card_t2 = Ok r2 /\
    parse_ok r2 = true /\ modelo r2 = py "A-20944" /\
    area_m2 r2 = Some 63%Q /\ unidades_disponibles r2 = Some 1 /\
    piso_min r2 = Some 2 /\ piso_max r2 = Some 2.
Proof. eexists. split; [vm_compute; reflexivity|]. repeat split. Qed.

(** ** A card beyond the limit of [int] *)

Example int_limit_message :
  exn_str (int_limit_error 4301) =
  py "Exceeds the limit (4300 digits) for integer string conversion: value has 4301 digits; use sys.set_int_max_str_digits() to increase the limit".
Proof. vm_compute. reflexivity. Qed.

(** [int] is reached with the 4301 digits of the units and raises, so no
    record is returned. *)
Example parse_card_text_over_limit :
  @parse_card_text unicode_15 card_long_units = Raise (int_limit_error 4301).
Proof. vm_compute. reflexivity. Qed.

(* ================================================================== *)
(** * The properties of the specification *)
(* ================================================================== *)

(** ** The two end-to-end cards *)

(** C1.  On the first end-to-end card the grammar matches, but the greedy
    model-code class takes the integer digits of the area that follow it:
    [parse_card_text] returns the model code AX0157 and the area 4.0, where
    the specification (and the test of the repository) expects AX01 and
    57.04.  The other fields are as stated: 27 units, price 327550.0 in S/,
    floors 2 to 28, 2 bedrooms, 2 bathrooms. *)
Theorem parse_card_napoles `{UnicodeData} :
  parse_card_text card_napoles =
  Ok {| modelo := py "AX0157";
        area_m2 := Some 4%Q;
        precio_desde := Some 327550%Q;
        moneda := Some (py "S/");
        unidades_disponibles := Some 27;
        piso_min := Some 2;
        piso_max := Some 28;
        dormitorios := Some 2;
        banos := Some 2;
        raw := Some card_napoles;
        parse_ok := true |}.
Proof. vm_compute. reflexivity. Qed.

(** C3, as stated, fails: the card has no text before the units count, the
    grammar requires a project name there, so nothing matches and the
    degraded record is returned instead of the fields of the claim. *)
Lemma parse_card_a209_no_match :
  exists t,
    @parse_card_text unicode_15 card_a209 = Ok t /\
    parse_ok t = false /\
    ~ (modelo t = py "A-209" /\ unidades_disponibles t = Some 1 /\
       piso_min t = Some 2 /\ piso_max t = Some 2 /\
       dormitorios t = Some 1 /\ banos t = Some 1).
Proof.
  eexists. split; [vm_compute; reflexivity|].
  split; [reflexivity|]. intros (E & _). discriminate E.
Qed.

(** C3, amended.  On the card as given the grammar does not match and the
    degraded record is returned (no model code, the best-effort area and
    price, every other number unset).  With a project name before the units
    count, as on the page, the grammar matches: 1 unit, price 271441.0 in
    S/, the single-floor clause gives floor_min = floor_max = 2, 1 bedroom
    and 1 bathroom.  The model code and the area of that match are left
    open. *)
Theorem parse_card_a209 `{UnicodeData} :
  parse_card_text card_a209 =
  Ok {| modelo := [];
        area_m2 := Some 1%Q;
        precio_desde := Some 1%Q;
        moneda := None;
        unidades_disponibles := None;
        piso_min := None;
        piso_max := None;
        dormitorios := None;
        banos := None;
        raw := Some card_a209;
        parse_ok := false |} /\
  exists code area,
    parse_card_text (py "PlanoTorre Nápoles" ++ card_a209) =
    Ok {| modelo := code;
          area_m2 := area;
          precio_desde := Some 271441%Q;
          moneda := Some (py "S/");
          unidades_disponibles := Some 1;
          piso_min := Some 2;
          piso_max := Some 2;
          dormitorios := Some 1;
          banos := Some 1;
          raw := Some (py "PlanoTorre Nápoles" ++ card_a209);
          parse_ok := true |}.
Proof.
  split; [vm_compute; reflexivity|].
  do 2 eexists. vm_compute. reflexivity.
Qed.

(** ** The degraded record *)

(** C2, as stated, fails on its last part: a text of blanks only is not
    empty, and its normalized form, kept as [raw], is. *)
Lemma parse_card_blank_raw_empty :
  py " " <> [] /\
  exists t, @parse_card_text unicode_15 (py " ") = Ok t /\ raw t = Some [].
Proof.
  split; [discriminate|]. eexists. split; [vm_compute|]; reflexivity.
Qed.

(** C2, amended.  The record that [parse_card_text] returns for a text
    keeps the normalized text as [raw].  When [parse_ok] is false the model
    code is empty, the area and the price are the float-parse and the
    money-parse of the whole normalized text, and the units, floors,
    bedrooms and bathrooms are unset.  [raw] is not empty whenever the text
    holds a character that is not whitespace. *)
Theorem parse_card_degraded `{UnicodeData} (txt : pystr) (t : Tipologia) :
  parse_card_text txt = Ok t ->
  raw t = Some (fix_mojibake (clean_text txt)) /\
  (parse_ok t = false ->
   modelo t = [] /\
   area_m2 t = parse_float (Some (fix_mojibake (clean_text txt))) /\
   precio_desde t =
     parse_money_to_float (Some (fix_mojibake (clean_text txt))) /\
   unidades_disponibles t = None /\
   piso_min t = None /\ piso_max t = None /\
   dormitorios t = None /\ banos t = None) /\
  ((exists c, In c txt /\ isspace c = false) -> raw t <> Some []).
Proof.
  intros Ht.
  assert (Hne : (exists c, In c txt /\ isspace c = false) ->
                Some (fix_mojibake (clean_text txt)) <> Some []).
  { intros (c & Hin & Hc) [= E].
    apply (fix_mojibake_nonempty (clean_text txt)); [|exact E].
    exact (clean_text_nonempty txt c Hin Hc). }
  destruct (search CARD_RE (fix_mojibake (clean_text txt))) as [g|] eqn:Hs.
  - destruct (parse_card_text_matched txt g t Hs Ht)
      as (u & lo & hi & d & b & _ & _ & _ & _ & _ & ->).
    cbn [raw parse_ok].
    split; [reflexivity|]. split; [discriminate | exact Hne].
  - unfold parse_card_text in Ht. rewrite Hs in Ht. injection Ht as <-.
    cbn [raw parse_ok modelo area_m2 precio_desde unidades_disponibles
         piso_min piso_max dormitorios banos].
    split; [reflexivity|]. split; [|exact Hne].
    intros _. repeat split.
Qed.

Lemma parse_card_degraded_witness :
  exists t,
    @parse_card_text unicode_15 (py " Modelo AX01 ") = Ok t /\
    parse_ok t = false /\
    modelo t = [] /\
    area_m2 t = Some 1%Q /\
    unidades_disponibles t = None /\
    raw t <> Some [].
Proof.
  destruct (@parse_card_text_returns unicode_15 (py " Modelo AX01 "))
    as [t E]; [vm_compute; lia|].
  destruct (@parse_card_degraded unicode_15 (py " Modelo AX01 ") t E)
    as (R & D & N).
  assert (Hok : parse_ok t = false)
    by (rewrite (parse_card_text_flag _ t E); vm_compute; reflexivity).
  destruct (D Hok) as (Hm & Ha & _ & Hu & _).
  exists t. split; [exact E|]. split; [exact Hok|]. split; [exact Hm|].
  split; [rewrite Ha; vm_compute; reflexivity|]. split; [exact Hu|].
  apply N. exists 0x4D. split; [vm_compute; tauto | reflexivity].
Defined.

(** ** The floor range *)

(** C7, as stated, fails: the grammar fully matches a card whose range is
    written from 28 down to 2, and the record keeps floor_min = 28 and
    floor_max = 2. *)
Lemma parse_card_floor_range_unordered :
  exists t g,
    @parse_card_text unicode_15 card_floors_28_to_2 = Ok t /\
    @search (@CARD_RE unicode_15)
       (fix_mojibake (clean_text card_floors_28_to_2)) = Some g /\
    parse_ok t = true /\
    group "piso_max" g = Some (py "2") /\
    piso_min t = Some 28 /\ piso_max t = Some 2 /\ ~ (2 >= 28).
Proof.
  do 2 eexists. split; [vm_compute; reflexivity|].
  split; [vm_compute; reflexivity|].
  repeat split. lia.
Qed.

(** C7, amended.  On every card that the grammar fully matches, both floors
    are set; when the range clause took part in the match, floor_max is the
    number written after it, in whatever order with floor_min (the two are
    never compared); when it did not, floor_max equals floor_min. *)
Theorem parse_card_floors `{UnicodeData} (txt : pystr) (t : Tipologia) :
  parse_card_text txt = Ok t -> parse_ok t = true ->
  exists g lo hi,
    search CARD_RE (fix_mojibake (clean_text txt)) = Some g /\
    piso_min t = Some lo /\ piso_max t = Some hi /\
    match group "piso_max" g with
    | Some v => py_int v = Ok hi
    | None => hi = lo
    end.
Proof.
  intros Ht Hok.
  pose proof (parse_card_text_flag txt t Ht) as Hf. rewrite Hok in Hf.
  destruct (search CARD_RE (fix_mojibake (clean_text txt))) as [g|] eqn:Hs;
    [|discriminate].
  destruct (parse_card_text_matched txt g t Hs Ht)
    as (u & lo & hi & d & b & _ & _ & Hhi & _ & _ & ->).
  exists g, lo, hi. repeat split.
  destruct (group "piso_max" g) as [v|]; [|assumption].
  destruct v as [|c v]; [discriminate|].
  cbn [int_if_set] in Hhi. destruct (py_int (c :: v)); cbn in Hhi; congruence.
Qed.

Lemma parse_card_floors_witness :
  exists t,
    @parse_card_text unicode_15 card_floors_28_to_2 = Ok t /\
    parse_ok t = true /\
    exists g lo hi,
      @search (@CARD_RE unicode_15)
         (fix_mojibake (clean_text card_floors_28_to_2)) = Some g /\
      piso_min t = Some lo /\ piso_max t = Some hi /\
      match group "piso_max" g with
      | Some v => @py_int unicode_15 v = Ok hi
      | None => hi = lo
      end.
Proof.
  eexists. split; [vm_compute; reflexivity|].
  split; [reflexivity|].
  apply (@parse_card_floors unicode_15 card_floors_28_to_2);
    [vm_compute; reflexivity | reflexivity].
Defined.

(** ** The mojibake repair *)

(** C6.  [fix_mojibake] is a total function, and when the round trip through
    Latin-1 and UTF-8 fails (either step raises) the text comes back
    unchanged, so repairing it once or twice is the identity. *)
Theorem fix_mojibake_failure_unchanged (s : pystr) :
  latin1_utf8 s = None ->
  fix_mojibake s = s /\ fix_mojibake (fix_mojibake s) = s.
Proof.
  intros Hf.
  assert (E : fix_mojibake s = s).
  { unfold fix_mojibake. destruct s; [reflexivity|]. now rewrite Hf. }
  now rewrite !E.
Qed.

Lemma fix_mojibake_failure_unchanged_witness :
  latin1_utf8 (py "Nápoles") = None /\
  fix_mojibake (py "Nápoles") = py "Nápoles" /\
  fix_mojibake (fix_mojibake (py "Nápoles")) = py "Nápoles".
Proof.
  split; [reflexivity|].
  apply (fix_mojibake_failure_unchanged (py "Nápoles")). reflexivity.
Defined.

(** ** The numeric parsers *)

(** C4.  [parse_money_to_float] computes what the specification words: on
    the normalized and repaired text it takes the first run of a digit
    followed by digits, periods and commas, drops every period and comma and
    returns the number that the remaining digits denote, an integer-valued
    float.  It returns none exactly when the input is absent or empty or its
    normalized text has no digit.  The price of the example is 327550.0. *)
Theorem parse_money_to_float_spec `{UnicodeData} :
  (forall text, parse_money_to_float text = Spec.money text) /\
  (forall text,
      parse_money_to_float text = None <->
      text = None \/ text = Some [] \/
      exists t, text = Some t /\
                forallb (fun c => negb (isdecimal c))
                        (fix_mojibake (clean_text t)) = true) /\
  (forall text v,
      parse_money_to_float text = Some v ->
      exists n : N, v = inject_Z (Z.of_N n)) /\
  parse_money_to_float (Some (py "Desde S/ 327,550")) = Some 327550%Q.
Proof.
  assert (R : forall text, parse_money_to_float text = Spec.money text).
  { intros [[|c t]|]; try reflexivity.
    unfold parse_money_to_float, Spec.money. rewrite money_search.
    destruct (Spec.money_run (fix_mojibake (clean_text (c :: t))))
      as [run|] eqn:E; [|reflexivity].
    cbn [option_map group String.eqb Ascii.eqb Bool.eqb].
    rewrite strip_separators.
    destruct (money_run_shape _ _ E) as (d & r & -> & Hd & Hr).
    apply py_float_run_of_digits.
    - cbn [filter]. unfold dot_comma at 1.
      destruct (decimal_not_separator d Hd) as [-> ->]. discriminate.
    - cbn [filter]. unfold dot_comma at 1.
      destruct (decimal_not_separator d Hd) as [-> ->]. cbn [orb negb forallb].
      now rewrite Hd, strip_separators_digits. }
  split; [exact R|]. split; [|split].
  - intros text. rewrite R. unfold Spec.money.
    destruct text as [[|c t]|].
    + split; auto.
    + destruct (Spec.money_run (fix_mojibake (clean_text (c :: t))))
        as [run|] eqn:E.
      * split; [discriminate|].
        intros [E'|[E'|(t' & [= <-] & Hn)]]; try discriminate.
        apply money_run_none in Hn. congruence.
      * split; [|reflexivity]. intros _. right. right.
        exists (c :: t). split; [reflexivity|]. now apply money_run_none.
    + split; auto.
  - intros text v. rewrite R. unfold Spec.money.
    destruct text as [[|c t]|]; try discriminate.
    destruct (Spec.money_run _); [|discriminate].
    intros [= <-]. eauto.
  - vm_compute. reflexivity.
Qed.

Lemma parse_money_to_float_spec_witness :
  @parse_money_to_float unicode_15 (Some (py "US$ 120,500")) = Some 120500%Q /\
  exists n : N, 120500%Q = inject_Z (Z.of_N n).
Proof.
  split; [vm_compute; reflexivity|].
  apply (proj1 (proj2 (proj2 (@parse_money_to_float_spec unicode_15)))
           (Some (py "US$ 120,500"))).
  vm_compute. reflexivity.
Defined.

(** C5.  [parse_float] computes what the specification words: on the
    normalized and repaired text it takes the first run of digits, at most
    one period or comma, and digits; a comma with no period is read as the
    decimal separator, otherwise commas are dropped and a period is the
    decimal separator.  It returns none exactly when the input is absent or
    empty or its normalized text has no digit.  The two examples give 57.04
    and 44.63. *)
Theorem parse_float_spec `{UnicodeData} :
  (forall text, parse_float text = Spec.float text) /\
  (forall text,
      parse_float text = None <->
      text = None \/ text = Some [] \/
      exists t, text = Some t /\
                forallb (fun c => negb (isdecimal c))
                        (fix_mojibake (clean_text t)) = true) /\
  parse_float (Some (py "57.04 m²")) = Some 57.04%Q /\
  parse_float (Some (py "44,63 m²")) = Some 44.63%Q.
Proof.
  assert (R : forall text, parse_float text = Spec.float text).
  { intros [[|c t]|]; try reflexivity.
    unfold parse_float, Spec.float. rewrite float_search.
    now destruct (Spec.float_run (fix_mojibake (clean_text (c :: t)))). }
  split; [exact R|]. split; [|split; vm_compute; reflexivity].
  intros text. rewrite R. unfold Spec.float.
  destruct text as [[|c t]|].
  - split; auto.
  - destruct (Spec.float_run (fix_mojibake (clean_text (c :: t))))
      as [run|] eqn:E.
    + split.
      * destruct (float_run_normalized _ _ E)
          as (ip & fp & Hne & Hi & Hf & [(_ & _ & ->)|(sep & _ & _ & ->)]).
        -- rewrite (py_float_run_of_digits ip Hne Hi). discriminate.
        -- rewrite (py_float_decimal ip fp Hne Hi Hf). discriminate.
      * intros [E'|[E'|(t' & [= <-] & Hn)]]; try discriminate.
        apply float_run_none in Hn. congruence.
    + split; [|reflexivity]. intros _. right. right.
      exists (c :: t). split; [reflexivity|]. now apply float_run_none.
  - split; auto.
Qed.

Lemma parse_float_spec_witness :
  forallb (fun c => negb (@isdecimal unicode_15 c))
          (fix_mojibake (clean_text (py "sin área"))) = true /\
  @parse_float unicode_15 (Some (py "sin área")) = None.
Proof.
  split; [reflexivity|].
  apply (proj2 (proj1 (proj2 (@parse_float_spec unicode_15))
                  (Some (py "sin área")))).
  right. right. exists (py "sin área"). split; reflexivity.
Defined.

(** C10.  Whatever the text, a value returned by [parse_money_to_float] or
    by [parse_float] is not negative: both match an unsigned run of digits
    and a minus sign before it is ignored, so a text that holds only -5.2
    float-parses as 5.2; hence the area and the price of every record are
    not negative when set. *)
Theorem parsers_nonnegative `{UnicodeData} :
  (forall text v, parse_money_to_float text = Some v -> (0 <= v)%Q) /\
  (forall text v, parse_float text = Some v -> (0 <= v)%Q) /\
  parse_float (Some (py "-5.2")) = Some 5.2%Q /\
  (forall txt t,
      parse_card_text txt = Ok t ->
      (forall v, area_m2 t = Some v -> (0 <= v)%Q) /\
      (forall v, precio_desde t = Some v -> (0 <= v)%Q)).
Proof.
  assert (M : forall text v, parse_money_to_float text = Some v -> (0 <= v)%Q).
  { intros text v. unfold parse_money_to_float.
    destruct text as [[|c t]|]; try discriminate.
    destruct (search MONEY_RE _); [|discriminate].
    destruct (group "1" _); [|discriminate]. apply py_float_nonneg. }
  assert (F : forall text v, parse_float text = Some v -> (0 <= v)%Q).
  { intros text v. unfold parse_float.
    destruct text as [[|c t]|]; try discriminate.
    destruct (search FLOAT_RE _); [|discriminate].
    destruct (group "1" _); [|discriminate]. apply py_float_nonneg. }
  split; [exact M|]. split; [exact F|]. split; [vm_compute; reflexivity|].
  intros txt t Ht.
  destruct (search CARD_RE (fix_mojibake (clean_text txt))) as [g|] eqn:Hs.
  - destruct (parse_card_text_matched txt g t Hs Ht)
      as (u & lo & hi & d & b & _ & _ & _ & _ & _ & ->).
    split; intros v Hv.
    + exact (F (group "area" g) v Hv).
    + exact (M (Some (fstr (group "moneda" g) ++ py " "
                        ++ fstr (group "precio" g))) v Hv).
  - unfold parse_card_text in Ht. rewrite Hs in Ht. injection Ht as <-.
    split; intros v Hv.
    + exact (F (Some (fix_mojibake (clean_text txt))) v Hv).
    + exact (M (Some (fix_mojibake (clean_text txt))) v Hv).
Qed.

Lemma parsers_nonnegative_witness :
  @parse_money_to_float unicode_15 (Some (py "-5.2")) = Some 52%Q /\
  (0 <= 52)%Q.
Proof.
  split; [vm_compute; reflexivity|].
  apply (proj1 (@parsers_nonnegative unicode_15) (Some (py "-5.2"))).
  vm_compute. reflexivity.
Defined.

(** ** The card extractor *)

(** C8.  On a page with no structural card the keyword scan runs; its test
    of the unit accepts any text that holds the letter m, so the block
    above, with no square-metre token in any spelling, is returned as a
    card.  The other parts of the claim hold ([extract_fallback],
    [first_cards_none]). *)
Theorem extract_card_without_unit (html : pystr) :
  first_cards page_without_area selectors = None /\
  extract_card_texts (fun _ => Ok page_without_area) html
  = Ok [card_without_area] /\
  contains (py "Modelo") card_without_area = true /\
  contains (py "Desde") card_without_area = true /\
  contains (py "m²") card_without_area = false /\
  contains (py "mÂ²") card_without_area = false /\
  contains (py "m2") card_without_area = false.
Proof. repeat split; vm_compute; reflexivity. Qed.

(** ** The project parser *)

(** C9.  The project parser, used as [NexoParser(html).parse()], has two
    kinds of failure, not one.  A page that the HTML parser rejects raises
    the exception of that parser as it is: the constructor parses the page
    before [parse] and its [try] block run.  On a page that the HTML parser
    accepts, the only failure is a [ParseError] that carries the message of
    the error it wraps, the [ValueError] of [int] on a digit group longer
    than the limit; [parse] returns when the normalized text of every card
    stays within that limit.  In the project that [parse] returns, a name or
    an address that no selector finds is none, so are the price and the
    currency when the page text has no price, and a page with no card gives
    no typology. *)
Theorem parser_failure_kinds `{UnicodeData}
        (BeautifulSoup : pystr -> result node) (page_html : pystr) :
  (forall e, BeautifulSoup page_html = Raise e ->
             bind (NexoParser_init BeautifulSoup page_html)
                  (parse BeautifulSoup) = Raise e) /\
  (forall self,
      NexoParser_init BeautifulSoup page_html = Ok self ->
      (forall e', parse BeautifulSoup self = Raise e' ->
                  exists n,
                    (int_max_str_digits < n)%nat /\
                    e' = Exception "ParseError"
                           (py "Error parsing Nexo: "
                               ++ exn_str (int_limit_error n))) /\
      ((forall txt, In txt (extract_from_soup (soup self)) ->
          (List.length (fix_mojibake (clean_text txt))
           <= int_max_str_digits)%nat) ->
       exists p, parse BeautifulSoup self = Ok p) /\
      (forall p,
          parse BeautifulSoup self = Ok p ->
          List.length (tipologias p)
          = List.length (extract_from_soup (soup self)) /\
          ((forall sel, In sel name_selectors ->
                        select_one (soup self) sel = None) ->
           nombre p = None) /\
          ((forall sel, In sel address_selectors ->
                        select_one (soup self) sel = None) ->
           direccion p = None) /\
          (search DESDE_RE
             (fix_mojibake (clean_text (get_text (py " ") (soup self))))
           = None ->
           p_precio_desde p = None /\ p_moneda p = None) /\
          (extract_from_soup (soup self) = [] -> tipologias p = []))).
Proof.
  split.
  - intros e He. now rewrite (NexoParser_init_raises _ _ _ He).
  - intros self Hself.
    destruct (NexoParser_init_built BeautifulSoup _ _ Hself) as [Hh Hpage].
    rewrite <- Hh in Hpage.
    split; [|split].
    + intros e' He'.
      destruct (parse_outcome BeautifulSoup self _ Hpage)
        as [(p & Hp & _)|(txt & n & _ & Hn & _ & Hr)]; [congruence|].
      exists n. split; [exact Hn | congruence].
    + intros Hshort.
      destruct (parse_returns BeautifulSoup self _ Hpage Hshort)
        as (p & Hp & _).
      now exists p.
    + intros p Hp.
      destruct (parse_fields BeautifulSoup self p Hp)
        as (page & Hpage' & Htips & Hn & Hd & Hm).
      assert (page = soup self) as -> by congruence.
      pose proof (mapM_length _ _ _ _ _ Htips) as Hlen.
      split; [exact Hlen|].
      split; [intros Hnone; rewrite Hn;
              now rewrite (find_first_text_none _ _ Hnone)|].
      split; [intros Hnone; rewrite Hd;
              now rewrite (find_first_text_none _ _ Hnone)|].
      split.
      * intros Hs. rewrite Hs in Hm.
        pose proof (f_equal fst Hm) as Hm1. pose proof (f_equal snd Hm) as Hm2.
        cbn [fst snd] in Hm1, Hm2. auto.
      * intros Hc. rewrite Hc in Hlen. now destruct (tipologias p).
Qed.

Lemma parser_failure_kinds_witness :
  bind (NexoParser_init (fun _ => Raise rejected_markup) (py "<![x]>"))
       (@parse unicode_15 (fun _ => Raise rejected_markup))
  = Raise rejected_markup /\
  exn_class rejected_markup <> "ParseError"%string.
Proof.
  split; [|discriminate].
  apply (proj1 (@parser_failure_kinds unicode_15
                  (fun _ => Raise rejected_markup) (py "<![x]>"))
           rejected_markup).
  reflexivity.
Defined.

(* ================================================================== *)
(** * Further properties of core/utils.py *)
(* ================================================================== *)

Module CleanFacts.

Lemma sub_spaces_single_spaced (s : pystr) :
  forall b, single_spaced b (sub_spaces b s) = true.
Proof.
  induction s as [|c s IH]; intros b; cbn [sub_spaces]; [reflexivity|].
  destruct (isspace c) eqn:Hc.
  - destruct b; [apply IH|].
    cbn [single_spaced]. change (isspace 0x20) with true.
    cbn. apply IH.
  - cbn [single_spaced]. rewrite Hc. apply IH.
Qed.

Lemma single_spaced_fixed (s : pystr) :
  forall b, single_spaced b s = true -> sub_spaces b s = s.
Proof.
  induction s as [|c s IH]; intros b; cbn [single_spaced sub_spaces];
    [reflexivity|].
  destruct (isspace c).
  - intros H. apply andb_prop in H as [H Hs]. apply andb_prop in H as [Hc Hb].
    apply Z.eqb_eq in Hc. subst c. destruct b; [discriminate|].
    now rewrite (IH true Hs).
  - intros Hs. now rewrite (IH false Hs).
Qed.

Lemma single_spaced_weaken (s : pystr) (b : bool) :
  single_spaced b s = true -> single_spaced false s = true.
Proof.
  destruct s as [|c s]; [reflexivity|]. cbn [single_spaced].
  destruct (isspace c); [|auto].
  intros H. apply andb_prop in H as [H Hs]. apply andb_prop in H as [Hc _].
  now rewrite Hc, Hs.
Qed.

Lemma single_spaced_dropwhile (s : pystr) :
  forall b, single_spaced b s = true ->
            single_spaced false (dropwhile isspace s) = true.
Proof.
  induction s as [|c s IH]; intros b; cbn [single_spaced dropwhile];
    [reflexivity|].
  destruct (isspace c) eqn:Hc.
  - intros H. apply andb_prop in H as [_ Hs]. now apply (IH true).
  - intros Hs. cbn [single_spaced]. now rewrite Hc.
Qed.

Lemma single_spaced_prefix (s t : pystr) :
  forall b, single_spaced b (s ++ t) = true -> single_spaced b s = true.
Proof.
  induction s as [|c s IH]; intros b; cbn [single_spaced app]; [reflexivity|].
  destruct (isspace c).
  - intros H. apply andb_prop in H as [H Hs]. rewrite H. now apply IH.
  - apply IH.
Qed.

Lemma single_spaced_adjacent (a : pystr) (x y : codepoint) (t : pystr) :
  forall b, single_spaced b (a ++ x :: y :: t) = true ->
            isspace x = true -> isspace y = false.
Proof.
  induction a as [|c a IH]; intros b; cbn [single_spaced app].
  - intros H Hx. rewrite Hx in H.
    apply andb_prop in H as [_ H]. cbn [single_spaced] in H.
    destruct (isspace y); [|reflexivity].
    apply andb_prop in H as [H _]. apply andb_prop in H as [_ H].
    discriminate H.
  - destruct (isspace c).
    + intros H. apply andb_prop in H as [_ H]. exact (IH true H).
    + apply IH.
Qed.

Lemma single_spaced_space (s : pystr) (c : codepoint) :
  forall b, single_spaced b s = true -> In c s -> isspace c = true ->
            c = 0x20.
Proof.
  induction s as [|d s IH]; intros b H Hin Hc; [destruct Hin|].
  cbn [single_spaced] in H. destruct Hin as [->|Hin].
  - rewrite Hc in H. apply andb_prop in H as [H _].
    apply andb_prop in H as [H _]. now apply Z.eqb_eq in H.
  - destruct (isspace d).
    + apply andb_prop in H as [_ H]. eauto.
    + eauto.
Qed.

Lemma dropwhile_snoc (p : codepoint -> bool) (l : pystr) (x : codepoint) :
  p x = false -> dropwhile p (l ++ [x]) = dropwhile p l ++ [x].
Proof.
  intros Hx. induction l as [|c l IH]; cbn [dropwhile app].
  - now rewrite Hx.
  - destruct (p c); [exact IH | reflexivity].
Qed.

Lemma dropwhile_head (p : codepoint -> bool) (l : pystr) :
  match dropwhile p l with
  | [] => True
  | x :: _ => p x = false
  end.
Proof.
  induction l as [|c l IH]; cbn [dropwhile]; [exact I|].
  destruct (p c) eqn:Hc; [exact IH | exact Hc].
Qed.

Lemma dropwhile_suffix (p : codepoint -> bool) (l : pystr) :
  exists pre, l = pre ++ dropwhile p l /\ forallb p pre = true.
Proof.
  exists (takewhile p l). split.
  - symmetry. apply takewhile_dropwhile.
  - apply takewhile_all.
Qed.

(** [strip] by the first character that stays. *)
Lemma strip_cons (s : pystr) :
  strip s =
  match dropwhile isspace s with
  | [] => []
  | x :: l => x :: rev (dropwhile isspace (rev l))
  end.
Proof.
  unfold strip. pose proof (dropwhile_head isspace s) as Hh.
  destruct (dropwhile isspace s) as [|x l]; [reflexivity|].
  cbn [rev]. rewrite (dropwhile_snoc isspace (rev l) x Hh).
  rewrite rev_app_distr. reflexivity.
Qed.

Lemma rstrip_prefix (l : pystr) :
  exists post, l = rev (dropwhile isspace (rev l)) ++ post /\
               forallb isspace post = true.
Proof.
  destruct (dropwhile_suffix isspace (rev l)) as (pre & E & Hp).
  exists (rev pre). split.
  - rewrite <- (rev_involutive l) at 1. rewrite E at 1.
    now rewrite rev_app_distr.
  - rewrite forallb_forall in *. intros c Hc. apply Hp. now apply in_rev.
Qed.

(** [strip] takes a piece out of the middle of the text. *)
Lemma strip_middle (s : pystr) :
  exists pre post,
    s = pre ++ strip s ++ post /\
    forallb isspace pre = true /\ forallb isspace post = true.
Proof.
  destruct (dropwhile_suffix isspace s) as (pre & E & Hp).
  rewrite strip_cons.
  destruct (dropwhile isspace s) as [|x l].
  - exists pre, []. now rewrite app_nil_r in *.
  - destruct (rstrip_prefix l) as (post & El & Hq).
    exists pre, post. split; [|now split].
    rewrite E at 1. cbn [app]. now rewrite <- El.
Qed.

Lemma strip_fixed (s : pystr) :
  match s with [] => True | x :: _ => isspace x = false end ->
  match rev s with [] => True | x :: _ => isspace x = false end ->
  strip s = s.
Proof.
  intros Hh Hl. unfold strip.
  destruct s as [|x l]; [reflexivity|].
  cbn [dropwhile]. rewrite Hh.
  destruct (rev (x :: l)) as [|y r] eqn:E.
  - apply (f_equal (@List.length _)) in E. rewrite length_rev in E.
    discriminate E.
  - cbn [dropwhile]. rewrite Hl, <- E. apply rev_involutive.
Qed.

Lemma strip_ends (s : pystr) :
  match strip s with [] => True | x :: _ => isspace x = false end /\
  match rev (strip s) with [] => True | x :: _ => isspace x = false end.
Proof.
  split.
  - rewrite strip_cons. pose proof (dropwhile_head isspace s) as Hh.
    now destruct (dropwhile isspace s).
  - unfold strip. rewrite rev_involutive. apply dropwhile_head.
Qed.

Lemma clean_text_single_spaced (s : pystr) :
  single_spaced false (clean_text s) = true.
Proof.
  unfold clean_text. rewrite strip_cons.
  pose proof (single_spaced_dropwhile (sub_spaces false s) false
                (sub_spaces_single_spaced s false)) as Hd.
  destruct (dropwhile isspace (sub_spaces false s)) as [|x l]; [reflexivity|].
  destruct (rstrip_prefix l) as (post & El & _).
  rewrite El in Hd.
  change (x :: rev (dropwhile isspace (rev l)) ++ post)
    with ((x :: rev (dropwhile isspace (rev l))) ++ post) in Hd.
  now apply single_spaced_prefix in Hd.
Qed.

Lemma filter_dropwhile_not_space (l : pystr) :
  filter not_space (dropwhile isspace l) = filter not_space l.
Proof.
  induction l as [|c l IH]; [reflexivity|]. cbn [dropwhile].
  destruct (isspace c) eqn:Hc; [|reflexivity].
  rewrite IH. cbn [filter].
  assert (E : not_space c = false) by (unfold not_space; now rewrite Hc).
  now rewrite E.
Qed.

Lemma filter_strip_not_space (l : pystr) :
  filter not_space (strip l) = filter not_space l.
Proof.
  unfold strip.
  rewrite filter_rev, filter_dropwhile_not_space, filter_rev, rev_involutive.
  apply filter_dropwhile_not_space.
Qed.

Lemma filter_sub_spaces_not_space (s : pystr) :
  forall b, filter not_space (sub_spaces b s) = filter not_space s.
Proof.
  induction s as [|c s IH]; intros b; [reflexivity|].
  cbn [sub_spaces].
  destruct (isspace c) eqn:Hc.
  - assert (E : not_space c = false) by (unfold not_space; now rewrite Hc).
    cbn [filter]. rewrite E.
    destruct b; [apply IH|]. cbn [filter].
    change (not_space 0x20) with false. apply IH.
  - assert (E : not_space c = true) by (unfold not_space; now rewrite Hc).
    cbn [filter]. rewrite E. now rewrite IH.
Qed.

(** Cleaning twice is cleaning once. *)
Lemma clean_text_fixed_point (s : pystr) :
  clean_text (clean_text s) = clean_text s.
Proof.
  unfold clean_text at 1.
  rewrite (single_spaced_fixed _ false (clean_text_single_spaced s)).
  destruct (strip_ends (sub_spaces false s)) as [Hh Hl].
  now apply strip_fixed.
Qed.

End CleanFacts.
Import CleanFacts.

Module CodecFacts.

(** Bit operations on disjoint fields as arithmetic. *)
Lemma lor_shiftl_low (h l n : Z) :
  0 <= n -> 0 <= l < 2 ^ n -> Z.lor (Z.shiftl h n) l = h * 2 ^ n + l.
Proof.
  intros Hn Hl.
  assert (D : Z.land (Z.shiftl h n) l = 0).
  { apply Z.bits_inj'. intros i Hi. rewrite Z.land_spec, Z.bits_0.
    destruct (Z.lt_ge_cases i n) as [Hlt|Hge].
    - now rewrite Z.shiftl_spec_low.
    - destruct (Z.eq_dec l 0) as [->|Hne].
      + rewrite Z.bits_0. apply andb_false_r.
      + rewrite (Z.bits_above_log2 l i); [apply andb_false_r | lia |].
        assert (Z.log2 l < n) by (apply Z.log2_lt_pow2; lia). lia. }
  rewrite <- Z.lxor_lor by exact D.
  rewrite <- Z.add_nocarry_lxor by exact D.
  now rewrite Z.shiftl_mul_pow2.
Qed.

Lemma lor_const (k n l : Z) :
  0 <= n -> 0 <= l < 2 ^ n -> Z.lor (k * 2 ^ n) l = k * 2 ^ n + l.
Proof.
  intros Hn Hl. rewrite <- (lor_shiftl_low k l n Hn Hl).
  now rewrite Z.shiftl_mul_pow2.
Qed.

Lemma land_low (x n : Z) : 0 <= n -> Z.land x (2 ^ n - 1) = x mod 2 ^ n.
Proof.
  intros Hn. rewrite <- Z.land_ones by exact Hn. f_equal.
  rewrite Z.ones_equiv. lia.
Qed.

Ltac dlia := Z.div_mod_to_equations; lia.

Ltac cmp :=
  repeat match goal with
         | |- context [?a <? ?b] => destruct (Z.ltb_spec a b); try dlia
         | |- context [?a <=? ?b] => destruct (Z.leb_spec a b); try dlia
         | |- context [?a =? ?b] => destruct (Z.eqb_spec a b); try dlia
         end.

Ltac arith_bytes :=
  cbn [app decode_utf8 forallb];
  unfold is_cont, in_range, cont_bits;
  change 0x1F with (2 ^ 5 - 1); change 0x3F with (2 ^ 6 - 1);
  change 0x0F with (2 ^ 4 - 1); change 0x07 with (2 ^ 3 - 1);
  rewrite !land_low by lia.

Ltac lor_arith :=
  repeat match goal with
         | |- context [Z.lor (Z.shiftl ?h ?n) ?l] =>
           rewrite (lor_shiftl_low h l n) by dlia
         end.

(** The bytes of a code point are bytes, and the decoder reads them back
    and goes on with the rest. *)
Lemma encode_decode_cp (c : codepoint) (rest : list Z) :
  is_scalar c = true ->
  decode_utf8 (encode_utf8_cp c ++ rest) = option_map (cons c) (decode_utf8 rest)
  /\ forallb (in_range 0 255) (encode_utf8_cp c) = true.
Proof.
  intros Hs.
  assert (Hc : 0 <= c <= 0xD7FF \/ 0xE000 <= c <= 0x10FFFF).
  { unfold is_scalar, in_range in Hs. lia. }
  clear Hs. unfold encode_utf8_cp.
  rewrite !Z.shiftr_div_pow2 by lia.
  change 0x3F with (2 ^ 6 - 1). rewrite !land_low by lia.
  change (2 ^ 6) with 64. change (2 ^ 12) with 4096. change (2 ^ 18) with 262144.
  destruct (Z.ltb_spec c 0x80) as [H1|H1].
  { cbn [app decode_utf8 forallb]. unfold in_range. split; cmp; reflexivity. }
  destruct (Z.ltb_spec c 0x800) as [H2|H2].
  { replace (Z.lor 0xC0 (c / 64)) with (192 + c / 64)
      by (symmetry; refine (lor_const 6 5 _ _ _); dlia).
    replace (Z.lor 0x80 (c mod 64)) with (128 + c mod 64)
      by (symmetry; refine (lor_const 2 6 _ _ _); dlia).
    arith_bytes.
    split; [cmp; cbn [andb]; do 2 f_equal; lor_arith; dlia
           | cmp; try reflexivity]. }
  destruct (Z.ltb_spec c 0x10000) as [H3|H3].
  { replace (Z.lor 0xE0 (c / 4096)) with (224 + c / 4096)
      by (symmetry; refine (lor_const 14 4 _ _ _); dlia).
    replace (Z.lor 0x80 ((c / 64) mod 64)) with (128 + (c / 64) mod 64)
      by (symmetry; refine (lor_const 2 6 _ _ _); dlia).
    replace (Z.lor 0x80 (c mod 64)) with (128 + c mod 64)
      by (symmetry; refine (lor_const 2 6 _ _ _); dlia).
    arith_bytes.
    split; [cmp; cbn [andb]; do 2 f_equal; lor_arith; dlia
           | cmp; try reflexivity]. }
  replace (Z.lor 0xF0 (c / 262144)) with (240 + c / 262144)
    by (symmetry; refine (lor_const 30 3 _ _ _); dlia).
  replace (Z.lor 0x80 ((c / 4096) mod 64)) with (128 + (c / 4096) mod 64)
    by (symmetry; refine (lor_const 2 6 _ _ _); dlia).
  replace (Z.lor 0x80 ((c / 64) mod 64)) with (128 + (c / 64) mod 64)
    by (symmetry; refine (lor_const 2 6 _ _ _); dlia).
  replace (Z.lor 0x80 (c mod 64)) with (128 + c mod 64)
    by (symmetry; refine (lor_const 2 6 _ _ _); dlia).
  arith_bytes.
  split; [cmp; cbn [andb]; do 2 f_equal; lor_arith; dlia
         | cmp; try reflexivity].
Qed.

Lemma decode_encode (s : pystr) :
  forallb is_scalar s = true ->
  decode_utf8 (flat_map encode_utf8_cp s) = Some s /\
  forallb (in_range 0 255) (flat_map encode_utf8_cp s) = true.
Proof.
  induction s as [|c s IH]; cbn [forallb flat_map]; [auto|].
  intros H. apply andb_prop in H as [Hc Hs]. destruct (IH Hs) as [Hd Hb].
  destruct (encode_decode_cp c (flat_map encode_utf8_cp s) Hc) as [E B].
  split.
  - rewrite E, Hd. reflexivity.
  - rewrite forallb_app. now rewrite B, Hb.
Qed.

End CodecFacts.
Import CodecFacts.

(* ================================================================== *)
(** * Further properties: the text normalizer *)
(* ================================================================== *)

(** X1.  The text that [clean_text] returns is in normal form: its only
    whitespace characters are single spaces, no two of them are adjacent,
    and it neither starts nor ends with one. *)
Theorem clean_text_normal_form (s : pystr) :
  (forall c, In c (clean_text s) -> isspace c = true -> c = 0x20) /\
  (forall a x y b, clean_text s = a ++ x :: y :: b ->
                   isspace x = true -> isspace y = false) /\
  match clean_text s with [] => True | x :: _ => isspace x = false end /\
  match rev (clean_text s) with [] => True | x :: _ => isspace x = false end.
Proof.
  pose proof (clean_text_single_spaced s) as Hn.
  split; [|split].
  - intros c Hin Hc. exact (single_spaced_space _ c false Hn Hin Hc).
  - intros a x y b E. rewrite E in Hn.
    exact (single_spaced_adjacent a x y b false Hn).
  - apply strip_ends.
Qed.

(** X2.  [clean_text] is idempotent: a cleaned text is left as it is. *)
Theorem clean_text_idempotent (s : pystr) :
  clean_text (clean_text s) = clean_text s.
Proof.
  pose proof (clean_text_single_spaced s) as Hn.
  destruct (strip_ends (sub_spaces false s)) as [Hh Hl].
  unfold clean_text at 1.
  rewrite (single_spaced_fixed _ false Hn).
  now apply strip_fixed.
Qed.

(** X3.  [clean_text] touches whitespace only: the characters that are not
    whitespace come out unchanged and in the same order, and the result is
    empty exactly when the text holds whitespace only. *)
Theorem clean_text_keeps_text (s : pystr) :
  filter not_space (clean_text s) = filter not_space s /\
  (clean_text s = [] <-> forallb isspace s = true).
Proof.
  assert (F : filter not_space (clean_text s) = filter not_space s).
  { unfold clean_text.
    now rewrite filter_strip_not_space, filter_sub_spaces_not_space. }
  split; [exact F|]. split.
  - intros E. rewrite E in F. cbn [filter] in F.
    apply forallb_forall. intros c Hc.
    destruct (isspace c) eqn:Hs; [reflexivity|].
    assert (Hin : In c (filter not_space s)).
    { apply filter_In. split; [assumption|]. unfold not_space. now rewrite Hs. }
    rewrite <- F in Hin. destruct Hin.
  - intros Hall.
    destruct (strip_ends (sub_spaces false s)) as [Hh _].
    fold (clean_text s) in Hh.
    destruct (clean_text s) as [|x l] eqn:E; [reflexivity|].
    assert (Hin : In x (filter not_space (x :: l))).
    { apply filter_In. split; [now left|]. unfold not_space. now rewrite Hh. }
    rewrite F in Hin. apply filter_In in Hin as [Hin Hx].
    rewrite forallb_forall in Hall. apply Hall in Hin.
    unfold not_space in Hx. rewrite Hin in Hx. discriminate Hx.
Qed.

(* ================================================================== *)
(** * Further properties: the mojibake repair *)
(* ================================================================== *)

(** X4.  [fix_mojibake] leaves a text as it is when all its characters are
    ASCII, and when one of them lies outside Latin-1. *)
Theorem fix_mojibake_ascii_or_wide (s : pystr) :
  forallb (in_range 0 0x7F) s = true \/ (exists c, In c s /\ 0xFF < c) ->
  fix_mojibake s = s.
Proof.
  intros [Ha|(c & Hin & Hc)].
  - assert (D : decode_utf8 s = Some s).
    { induction s as [|c s IH]; [reflexivity|]. cbn [forallb] in Ha.
      apply andb_prop in Ha as [Hc Hs]. cbn [decode_utf8].
      unfold in_range in Hc.
      destruct (Z.ltb_spec c 0x80); [|lia]. now rewrite (IH Hs). }
    assert (E : encode_latin1 s = Some s).
    { unfold encode_latin1.
      replace (forallb (in_range 0 255) s) with true; [reflexivity|].
      symmetry. apply forallb_forall. intros x Hx.
      rewrite forallb_forall in Ha. specialize (Ha x Hx).
      unfold in_range in *. lia. }
    unfold fix_mojibake, latin1_utf8. rewrite E, D. now destruct s.
  - assert (E : encode_latin1 s = None).
    { unfold encode_latin1.
      destruct (forallb (in_range 0 255) s) eqn:F; [|reflexivity].
      rewrite forallb_forall in F. specialize (F c Hin).
      unfold in_range in F. lia. }
    unfold fix_mojibake, latin1_utf8. rewrite E. now destruct s.
Qed.

Lemma fix_mojibake_ascii_or_wide_witness :
  fix_mojibake (py "Torre Sol 12") = py "Torre Sol 12" /\
  fix_mojibake (py "precio 100 €") = py "precio 100 €".
Proof.
  split.
  - apply (fix_mojibake_ascii_or_wide (py "Torre Sol 12")).
    left. reflexivity.
  - apply (fix_mojibake_ascii_or_wide (py "precio 100 €")).
    right. exists 0x20AC. split; [vm_compute; tauto | reflexivity].
Defined.

(** X5.  [fix_mojibake] undoes the corruption it is written for: when the
    UTF-8 bytes of any text are read as Latin-1, repairing the result gives
    the text back. *)
Theorem fix_mojibake_repairs (s bad : pystr) :
  mojibake s = Some bad -> fix_mojibake bad = s.
Proof.
  unfold mojibake, encode_utf8, decode_latin1.
  destruct (forallb is_scalar s) eqn:Hs; [|discriminate].
  intros [= <-]. destruct (decode_encode s Hs) as [D B].
  unfold fix_mojibake, latin1_utf8, encode_latin1. rewrite B, D.
  destruct (flat_map encode_utf8_cp s); [|reflexivity].
  cbn in D. now injection D.
Qed.

Lemma fix_mojibake_repairs_witness :
  mojibake (py "Nápoles m² baños") = Some (py "NÃ¡poles mÂ² baÃ±os") /\
  fix_mojibake (py "NÃ¡poles mÂ² baÃ±os") = py "Nápoles m² baños".
Proof.
  split; [reflexivity|].
  apply (fix_mojibake_repairs (py "Nápoles m² baños")). reflexivity.
Defined.

(* ================================================================== *)
(** * Further properties: the numeric parsers *)
(* ================================================================== *)

Module NumericMore.

Section Numeric.
Context `{UnicodeData}.

Lemma searched_empty : searched (Some []) = [].
Proof. reflexivity. Qed.

Lemma parse_money_by_run (text : option pystr) :
  parse_money_to_float text = None <-> Spec.money_run (searched text) = None.
Proof.
  destruct text as [[|c t]|]; try (cbn; tauto).
  unfold parse_money_to_float, searched. rewrite money_search.
  destruct (Spec.money_run (fix_mojibake (clean_text (c :: t))))
    as [run|] eqn:E; [|tauto].
  cbn [option_map group String.eqb Ascii.eqb Bool.eqb].
  rewrite strip_separators.
  destruct (money_run_shape _ _ E) as (d & r & -> & Hd & Hr).
  rewrite py_float_run_of_digits; [split; discriminate | |].
  - cbn [filter]. unfold dot_comma at 1.
    destruct (decimal_not_separator d Hd) as [-> ->]. discriminate.
  - cbn [filter]. unfold dot_comma at 1.
    destruct (decimal_not_separator d Hd) as [-> ->]. cbn [orb negb forallb].
    now rewrite Hd, strip_separators_digits.
Qed.

Lemma parse_float_by_run (text : option pystr) :
  parse_float text = None <-> Spec.float_run (searched text) = None.
Proof.
  destruct text as [[|c t]|]; try (cbn; tauto).
  unfold parse_float, searched. rewrite float_search.
  destruct (Spec.float_run (fix_mojibake (clean_text (c :: t))))
    as [run|] eqn:E; [|tauto].
  cbn [option_map group String.eqb Ascii.eqb Bool.eqb].
  destruct (float_run_normalized _ _ E)
    as (ip & fp & Hne & Hi & Hf & [(_ & _ & ->)|(sep & _ & _ & ->)]).
  - rewrite (py_float_run_of_digits ip Hne Hi). split; discriminate.
  - rewrite (py_float_decimal ip fp Hne Hi Hf). split; discriminate.
Qed.

End Numeric.

End NumericMore.
Import NumericMore.

(** X6.  The two parsers find a number in the same texts: [parse_float]
    returns none exactly when [parse_money_to_float] does.  In particular
    the area and the price of a degraded record are both set or both
    unset. *)
Theorem parsers_none_together `{UnicodeData} :
  (forall text, parse_float text = None <-> parse_money_to_float text = None) /\
  (forall txt t, parse_card_text txt = Ok t -> parse_ok t = false ->
                 (area_m2 t = None <-> precio_desde t = None)).
Proof.
  assert (P : forall text,
             parse_float text = None <-> parse_money_to_float text = None).
  { intros text. rewrite parse_float_by_run, parse_money_by_run.
    now rewrite float_run_none, money_run_none. }
  split; [exact P|].
  intros txt t Ht Hok.
  pose proof (parse_card_text_flag txt t Ht) as Hf. rewrite Hok in Hf.
  unfold parse_card_text in Ht.
  destruct (search CARD_RE (fix_mojibake (clean_text txt))); [discriminate|].
  injection Ht as <-.
  exact (P (Some (fix_mojibake (clean_text txt)))).
Qed.

Lemma parsers_none_together_witness :
  exists t,
    @parse_card_text unicode_15 (py "Modelo sin precio") = Ok t /\
    parse_ok t = false /\
    (area_m2 t = None <-> precio_desde t = None).
Proof.
  eexists. split; [vm_compute; reflexivity|]. split; [reflexivity|].
  apply (proj2 (@parsers_none_together unicode_15) (py "Modelo sin precio"));
    [vm_compute; reflexivity | reflexivity].
Defined.

(** X7.  Cleaning a text beforehand changes nothing: the two numeric
    parsers and the card parser return the same on a text and on its
    cleaned form. *)
Theorem parsing_ignores_cleaning `{UnicodeData} (s : pystr) :
  parse_money_to_float (Some (clean_text s)) = parse_money_to_float (Some s) /\
  parse_float (Some (clean_text s)) = parse_float (Some s) /\
  parse_card_text (clean_text s) = parse_card_text s.
Proof.
  assert (E : clean_text s = [] -> fix_mojibake (clean_text s) = [])
    by (now intros ->).
  split; [|split].
  - unfold parse_money_to_float. rewrite clean_text_fixed_point.
    destruct s as [|c s]; [reflexivity|].
    destruct (clean_text (c :: s)) eqn:Ec; [|reflexivity].
    reflexivity.
  - unfold parse_float. rewrite clean_text_fixed_point.
    destruct s as [|c s]; [reflexivity|].
    destruct (clean_text (c :: s)) eqn:Ec; [|reflexivity].
    reflexivity.
  - unfold parse_card_text. now rewrite clean_text_fixed_point.
Qed.

(* ================================================================== *)
(** * Further properties: the card grammar *)
(* ================================================================== *)

Module CardMore.

Section Full.
Context `{UnicodeData}.

Lemma lang_lit_i (s v : pystr) :
  lang (lit_i s) v ->
  List.length v = List.length s /\
  Forall2 (fun c t => literal_i c t = true) s v.
Proof.
  unfold lit_i. revert v.
  induction s as [|c [|d s] IH]; intros v; cbn [map seqs lang].
  - intros ->. split; [reflexivity | constructor].
  - intros (t & -> & Ht). split; [reflexivity | repeat constructor; exact Ht].
  - intros (v1 & v2 & -> & (t & -> & Ht) & L2).
    destruct (IH v2 L2) as [Hl Hf].
    split; [cbn in *; now rewrite Hl | constructor; assumption].
Qed.

Lemma CARD_RE_respects_full : respects card_inv_full CARD_RE.
Proof.
  unfold CARD_RE. apply respects_seqs.
  repeat apply Forall_cons; try apply Forall_nil;
    cbn [respects Opt Plus LazyPlus seqs];
    repeat match goal with
           | |- _ /\ _ => split
           | |- True => exact I
           | |- respects _ (lit_i _) => apply respects_lit_i
           end.
  all: intros s L; unfold card_inv_full;
    repeat match goal with |- _ /\ _ => split end;
    try (intros E; discriminate E);
    try (intros E; cbv in E; discriminate E);
    try (apply card_inv_digits; exact L).
  - (* moneda *)
    intros _. cbn [lang] in L. destruct L as [L|L];
      apply lang_lit_i in L as [_ F].
    + left. change (py "S/") with [0x53; 0x2F] in F.
      inversion F as [|? a ? v1 Ha F1]; subst.
      inversion F1 as [|? b ? v2 Hb F2]; subst.
      inversion F2; subst.
      exists a. split; [|exact Ha].
      apply Z.eqb_eq in Hb. now subst b.
    + right. change (py "US$") with [0x55; 0x53; 0x24] in F.
      inversion F as [|? a ? v1 Ha F1]; subst.
      inversion F1 as [|? b ? v2 Hb F2]; subst.
      inversion F2 as [|? d ? v3 Hd F3]; subst.
      inversion F3; subst.
      exists a, b. split; [|now split].
      apply Z.eqb_eq in Hd. now subst d.
  - (* modelo *)
    intros _. now apply lang_Plus.
Qed.

End Full.

(** ** The characters behind the case-insensitive classes *)

Ltac bool_to_prop :=
  repeat (rewrite ?andb_true_iff, ?andb_false_iff, ?orb_true_iff,
            ?orb_false_iff, ?negb_true_iff, ?negb_false_iff,
            ?Z.leb_le, ?Z.leb_gt, ?Z.eqb_eq, ?Z.eqb_neq in * ).

Ltac by_cases :=
  repeat match goal with
         | |- context [if ?b then _ else _] => destruct b eqn:?
         end;
  unfold in_range in *; bool_to_prop; lia.

Lemma word_hyphen_i_chars (c : codepoint) :
  word_hyphen_i c = true <-> model_code_char c = true.
Proof.
  unfold word_hyphen_i, model_code_char, ascii_alnum, tolower. by_cases.
Qed.

Lemma literal_i_S (a : codepoint) :
  literal_i 0x53 a = true -> a = 0x53 \/ a = 0x73 \/ a = 0x17F.
Proof.
  unfold literal_i. change (iscased 0x53) with true.
  change (tolower 0x53) with 0x73. change (fixes 0x73) with [0x17F].
  cbn [existsb]. unfold tolower. by_cases.
Qed.

Lemma literal_i_U (a : codepoint) :
  literal_i 0x55 a = true -> a = 0x55 \/ a = 0x75.
Proof.
  unfold literal_i. change (iscased 0x55) with true.
  change (tolower 0x55) with 0x75. change (fixes 0x75) with (@nil Z).
  cbn [existsb]. unfold tolower. by_cases.
Qed.

Lemma currency_token_spellings (v : pystr) :
  currency_token v -> In v currency_spellings.
Proof.
  intros [(a & -> & Ha)|(a & b & -> & Ha & Hb)].
  - apply literal_i_S in Ha. unfold currency_spellings. cbn [In].
    destruct Ha as [-> | [-> | ->]]; auto.
  - apply literal_i_U in Ha. apply literal_i_S in Hb.
    unfold currency_spellings. cbn [In].
    destruct Ha as [-> | ->]; destruct Hb as [-> | [-> | ->]]; auto 10.
Qed.

Lemma model_code_chars (v : pystr) :
  forallb word_hyphen_i v = true -> forallb model_code_char v = true.
Proof.
  rewrite !forallb_forall. intros Hv c Hc.
  now apply word_hyphen_i_chars, Hv.
Qed.

End CardMore.
Import CardMore.

(** X8.  A full match fills the record: when [parse_ok] is true the units,
    both floors, the bedrooms and the bathrooms are set and not negative;
    the currency is one of the nine spellings of S/ and US$ that the
    pattern accepts (S, s or the long s U+017F, and U or u); the model code
    is a non-empty run of characters that are each an ASCII letter, an ASCII
    digit, a hyphen, an underscore or one of U+0130, U+0131, U+017F and
    U+212A, which the class accepts because the pattern ignores case; and
    currency and model code are pieces of the normalized text kept as
    [raw]. *)
Theorem parse_card_full_match `{UnicodeData} (txt : pystr) (t : Tipologia) :
  parse_card_text txt = Ok t -> parse_ok t = true ->
  (exists u lo hi d b,
      unidades_disponibles t = Some u /\ piso_min t = Some lo /\
      piso_max t = Some hi /\ dormitorios t = Some d /\ banos t = Some b /\
      0 <= u /\ 0 <= lo /\ 0 <= hi /\ 0 <= d /\ 0 <= b) /\
  (exists cur, moneda t = Some cur /\ In cur currency_spellings /\
               infix cur (fix_mojibake (clean_text txt))) /\
  modelo t <> [] /\ forallb model_code_char (modelo t) = true /\
  infix (modelo t) (fix_mojibake (clean_text txt)) /\
  raw t = Some (fix_mojibake (clean_text txt)).
Proof.
  intros Ht Hok.
  pose proof (parse_card_text_flag txt t Ht) as Hf. rewrite Hok in Hf.
  destruct (search CARD_RE (fix_mojibake (clean_text txt))) as [g|] eqn:Hs;
    [clear Hf | discriminate].
  destruct (parse_card_text_matched txt g t Hs Ht)
    as (u & lo & hi & d & b & Hu & Hlo & Hhi & Hd & Hb & ->).
  destruct (search_sound card_inv_full CARD_RE _ g CARD_RE_respects_full Hs)
    as (G & B & _).
  pose proof (search_groups_infix _ _ _ Hs) as Gi.
  pose proof CARD_RE_binds as Bn.
  assert (Nonneg : forall o n, int_if_set o = Ok (Some n) -> 0 <= n).
  { intros [[|c v]|] n; cbn [int_if_set]; try discriminate.
    destruct (py_int (c :: v)) as [k|e] eqn:Hk; cbn [bind]; [|discriminate].
    intros [= <-]. exact (py_int_nonneg _ _ Hk). }
  destruct (group_bound "moneda" g) as [cur Ecur];
    [apply B, Bn; cbn; tauto|].
  destruct (group_bound "modelo" g) as [code Ecode];
    [apply B, Bn; cbn; tauto|].
  pose proof (G _ _ (group_In _ _ _ Ecur)) as (_ & _ & Hcur).
  pose proof (G _ _ (group_In _ _ _ Ecode)) as (_ & Hcode & _).
  destruct (Hcode eq_refl) as [Hne Hw].
  cbn [unidades_disponibles piso_min piso_max dormitorios banos moneda
       modelo raw].
  rewrite Ecur, Ecode.
  assert (Ehi : int_if_set
                  (match group "piso_max" g with
                   | Some v => Some v | None => group "piso_min" g end)
                = Ok (Some hi)).
  { destruct (group "piso_max" g); [exact Hhi | now subst hi]. }
  split; [|split; [|split; [|split; [|split]]]].
  - exists u, lo, hi, d, b. repeat split; eauto.
  - exists cur. split; [reflexivity|].
    split; [exact (currency_token_spellings cur (Hcur eq_refl))|].
    exact (Gi _ _ (group_In _ _ _ Ecur)).
  - destruct code; [congruence | cbn; discriminate].
  - destruct code; [congruence | exact (model_code_chars _ Hw)].
  - destruct code; [congruence|]. exact (Gi _ _ (group_In _ _ _ Ecode)).
  - reflexivity.
Qed.

Lemma parse_card_full_match_witness :
  exists t,
    @parse_card_text unicode_15 card_floors_28_to_2 = Ok t /\
    parse_ok t = true /\
    modelo t <> [] /\
    raw t = Some (fix_mojibake (clean_text card_floors_28_to_2)).
Proof.
  eexists. split; [vm_compute; reflexivity|]. split; [reflexivity|].
  destruct (@parse_card_full_match unicode_15 card_floors_28_to_2 _
              ltac:(vm_compute; reflexivity) eq_refl)
    as (_ & _ & Hm & _ & _ & Hr).
  split; [exact Hm | exact Hr].
Defined.

(* ================================================================== *)
(** * Further properties: the page *)
(* ================================================================== *)

Module PageMore.

Lemma first_cards_some (page : node) (sels : list selector)
      (cards : list node) :
  first_cards page sels = Some cards <->
  exists pre sel post,
    sels = pre ++ sel :: post /\
    (forall s, In s pre -> (List.length (select page s) < 2)%nat) /\
    (2 <= List.length (select page sel))%nat /\
    cards = select page sel.
Proof.
  revert cards. induction sels as [|sel sels IH]; intros cards;
    cbn [first_cards].
  - split; [discriminate|]. intros (pre & s & post & E & _).
    destruct pre; discriminate E.
  - destruct (Nat.leb_spec 2 (List.length (select page sel))) as [Hle|Hlt].
    + split.
      * intros [= <-]. exists [], sel, sels. repeat split; auto.
        intros s [].
      * intros (pre & s & post & E & Hpre & Hs & ->).
        destruct pre as [|p pre]; cbn in E; injection E as E1 E2; subst;
          [reflexivity|].
        specialize (Hpre _ (or_introl eq_refl)). lia.
    + rewrite IH. split.
      * intros (pre & s & post & -> & Hpre & Hs & ->).
        exists (sel :: pre), s, post. repeat split; auto.
        intros x [<-|Hx]; auto.
      * intros (pre & s & post & E & Hpre & Hs & ->).
        destruct pre as [|p pre]; cbn in E; injection E as E1 E2; subst;
          [lia|].
        exists pre, s, post. repeat split; auto.
        intros x Hx. apply Hpre. now right.
Qed.

Lemma dedupe_snoc (blocks : list pystr) (x : pystr) :
  forall seen,
    dedupe seen (blocks ++ [x]) =
    dedupe seen blocks
      ++ (if existsb (str_eqb x) (seen ++ blocks) then [] else [x]).
Proof.
  induction blocks as [|b blocks IH]; intros seen; cbn [dedupe app].
  - rewrite app_nil_r. now destruct (existsb (str_eqb x) seen).
  - destruct (existsb (str_eqb b) seen) eqn:E.
    + rewrite IH. f_equal.
      rewrite !existsb_app. cbn [existsb].
      destruct (str_eqb x b) eqn:Exb; [|reflexivity].
      apply str_eqb_eq in Exb. subst x. rewrite E. reflexivity.
    + rewrite IH. cbn [app]. do 2 f_equal.
      rewrite !existsb_app. cbn [existsb]. rewrite ?existsb_app.
      now destruct (str_eqb x b), (existsb (str_eqb x) seen),
        (existsb (str_eqb x) blocks).
Qed.

Lemma mapM_Forall2 (A B : Type) (f : A -> result B) (l : list A) :
  forall bs, mapM f l = Ok bs -> Forall2 (fun a b => f a = Ok b) l bs.
Proof.
  induction l as [|a l IH]; cbn [mapM]; intros bs H.
  - injection H as <-. constructor.
  - destruct (f a) as [b|] eqn:Ea; cbn [bind] in H; [|discriminate].
    destruct (mapM f l) as [bs'|]; cbn [bind] in H; [|discriminate].
    injection H as <-. constructor; auto.
Qed.

End PageMore.
Import PageMore.

(** X9.  The structural selectors are tried in their order: the first one
    that finds at least two elements decides, and the result is the text of
    each of its elements, in document order, duplicates and empty texts
    included. *)
Theorem extract_first_selector (page : node)
        (pre : list selector) (sel : selector) (post : list selector) :
  selectors = pre ++ sel :: post ->
  (forall s, In s pre -> (List.length (select page s) < 2)%nat) ->
  (2 <= List.length (select page sel))%nat ->
  extract_from_soup page = map card_text (select page sel) /\
  (2 <= List.length (extract_from_soup page))%nat.
Proof.
  intros E Hpre Hsel.
  assert (F : first_cards page selectors = Some (select page sel)).
  { apply first_cards_some. exists pre, sel, post. auto. }
  unfold extract_from_soup. rewrite F. split; [reflexivity|].
  now rewrite length_map.
Qed.

Lemma extract_first_selector_witness :
  extract_from_soup page_two_cards = [py "Modelo A"; py "Modelo A"] /\
  (2 <= List.length (extract_from_soup page_two_cards))%nat.
Proof.
  apply (extract_first_selector page_two_cards
           [ Simple (ByClass (py "modelo-card"));
             Simple (ByClass (py "model-card"));
             Simple (ByAttr (py "data-testid") (py "model-card"));
             Simple (ByClass (py "card-modelo")) ]
           (Simple (ByClass (py "card"))) []).
  - reflexivity.
  - intros s Hs. cbn [In] in Hs.
    repeat destruct Hs as [<-|Hs]; vm_compute; lia.
  - vm_compute. lia.
Defined.

(** X10.  When no structural selector finds two elements, the result holds
    exactly the non-empty texts of the div, section, article and li elements
    that pass the keyword test, each of them once. *)
Theorem extract_keyword_scan (page : node) :
  (forall sel, In sel selectors ->
               (List.length (select page sel) < 2)%nat) ->
  NoDup (extract_from_soup page) /\
  forall txt,
    In txt (extract_from_soup page) <->
    txt <> [] /\ keyword_block txt = true /\
    exists tag,
      In tag (find_all page [py "div"; py "section"; py "article"; py "li"])
      /\ card_text tag = txt.
Proof.
  intros Hall. apply first_cards_none in Hall.
  unfold extract_from_soup. rewrite Hall. split; [apply dedupe_NoDup|].
  intros txt. rewrite dedupe_In, filter_In, in_map_iff. cbn [In].
  split.
  - intros [[(tag & E & Hin) Hk] _].
    apply andb_prop in Hk as [Hne Hk].
    repeat split; eauto. intros ->. discriminate Hne.
  - intros (Hne & Hk & tag & Hin & E).
    split; [|tauto]. split; [eauto|].
    rewrite Hk. destruct txt; [congruence | reflexivity].
Qed.

Lemma extract_keyword_scan_witness :
  NoDup (extract_from_soup page_without_area) /\
  forall txt,
    In txt (extract_from_soup page_without_area) <->
    txt <> [] /\ keyword_block txt = true /\
    exists tag,
      In tag (find_all page_without_area
                [py "div"; py "section"; py "article"; py "li"])
      /\ card_text tag = txt.
Proof.
  apply (extract_keyword_scan page_without_area).
  intros sel Hs. unfold selectors in Hs. cbn [In] in Hs.
  repeat destruct Hs as [<-|Hs]; vm_compute; lia.
Defined.

(** X11.  The loop that removes duplicates keeps the first occurrence of
    each text and the order of the first occurrences: a text at the end of
    the input is appended when it was not seen before, and dropped
    otherwise. *)
Theorem dedupe_first_seen (blocks : list pystr) (x : pystr) :
  dedupe [] (blocks ++ [x]) =
  dedupe [] blocks ++ (if existsb (str_eqb x) blocks then [] else [x]).
Proof. exact (dedupe_snoc blocks x []). Qed.

(** X12.  [_find_first_text] follows the order of its selectors: it returns
    the text of the first element of the first selector that finds one, and
    none exactly when no selector finds an element. *)
Theorem find_first_text_priority (page : node) (sels : list selector) :
  (forall txt,
      _find_first_text page sels = Some txt <->
      exists pre sel post el,
        sels = pre ++ sel :: post /\
        (forall s, In s pre -> select_one page s = None) /\
        select_one page sel = Some el /\
        txt = get_text (py " ") el) /\
  (_find_first_text page sels = None <->
   forall s, In s sels -> select_one page s = None).
Proof.
  induction sels as [|sel sels [IHs IHn]]; cbn [_find_first_text].
  - split.
    + intros txt. split; [discriminate|].
      intros (pre & s & post & el & E & _). destruct pre; discriminate E.
    + split; [intros _ s [] | reflexivity].
  - destruct (select_one page sel) as [el|] eqn:Es.
    + split.
      * intros txt. split.
        -- intros [= <-]. exists [], sel, sels, el. repeat split; auto.
           intros s [].
        -- intros (pre & s & post & el' & E & Hpre & Hs & ->).
           destruct pre as [|p pre]; cbn in E; injection E as E1 E2; subst.
           ++ congruence.
           ++ specialize (Hpre _ (or_introl eq_refl)). congruence.
      * split; [discriminate|]. intros Hall.
        specialize (Hall sel (or_introl eq_refl)). congruence.
    + split.
      * intros txt. rewrite IHs. split.
        -- intros (pre & s & post & el & -> & Hpre & Hs & ->).
           exists (sel :: pre), s, post, el. repeat split; auto.
           intros x [<-|Hx]; auto.
        -- intros (pre & s & post & el & E & Hpre & Hs & ->).
           destruct pre as [|p pre]; cbn in E; injection E as E1 E2; subst;
             [congruence|].
           exists pre, s, post, el. repeat split; auto.
           intros x Hx. apply Hpre. now right.
      * rewrite IHn. split.
        -- intros Hall s [<-|Hs]; auto.
        -- intros Hall s Hs. apply Hall. now right.
Qed.

(* ================================================================== *)
(** * Further properties: the project parser and the scraper *)
(* ================================================================== *)

Module ProjectMore.

Section Project.
Context `{UnicodeData}.

Lemma DESDE_RE_binds : incl ["2"; "1"]%string (binds DESDE_RE).
Proof.
  assert (B : forall s, binds (lit_i s) = []).
  { intros s. unfold lit_i. induction s as [|c [|d s] IH]; try reflexivity.
    cbn [map seqs binds] in *. now rewrite IH. }
  unfold DESDE_RE. cbn [seqs binds Opt Plus]. rewrite !B. cbn [app].
  intros n Hn. exact Hn.
Qed.

Lemma DESDE_RE_respects :
  respects (fun name v => name = "1"%string -> currency_token v) DESDE_RE.
Proof.
  unfold DESDE_RE. apply respects_seqs.
  repeat apply Forall_cons; try apply Forall_nil;
    cbn [respects Opt Plus seqs];
    repeat match goal with
           | |- _ /\ _ => split
           | |- True => exact I
           | |- respects _ (lit_i _) => apply respects_lit_i
           end.
  - intros s L _. cbn [lang] in L. destruct L as [L|L];
      apply lang_lit_i in L as [_ F].
    + left. change (py "S/") with [0x53; 0x2F] in F.
      inversion F as [|? a ? v1 Ha F1]; subst.
      inversion F1 as [|? b ? v2 Hb F2]; subst.
      inversion F2; subst.
      exists a. split; [|exact Ha].
      apply Z.eqb_eq in Hb. now subst b.
    + right. change (py "US$") with [0x55; 0x53; 0x24] in F.
      inversion F as [|? a ? v1 Ha F1]; subst.
      inversion F1 as [|? b ? v2 Hb F2]; subst.
      inversion F2 as [|? d ? v3 Hd F3]; subst.
      inversion F3; subst.
      exists a, b. split; [|now split].
      apply Z.eqb_eq in Hd. now subst d.
  - intros s _ E. discriminate E.
Qed.

Lemma parse_money_nonneg (text : option pystr) (v : Q) :
  parse_money_to_float text = Some v -> (0 <= v)%Q.
Proof.
  unfold parse_money_to_float.
  destruct text as [[|c t]|]; try discriminate.
  destruct (search MONEY_RE _); [|discriminate].
  destruct (group "1" _); [|discriminate]. apply py_float_nonneg.
Qed.

Lemma parse_card_text_raw (txt : pystr) (t : Tipologia) :
  parse_card_text txt = Ok t -> raw t = Some (fix_mojibake (clean_text txt)).
Proof.
  intros Ht.
  destruct (search CARD_RE (fix_mojibake (clean_text txt))) as [g|] eqn:Hs.
  - destruct (parse_card_text_matched txt g t Hs Ht)
      as (u & lo & hi & d & b & _ & _ & _ & _ & _ & ->).
    reflexivity.
  - unfold parse_card_text in Ht. rewrite Hs in Ht. now injection Ht as <-.
Qed.

Lemma parse_card_texts_raw (l : list pystr) (l' : list Tipologia) :
  Forall2 (fun txt t => parse_card_text txt = Ok t) l l' ->
  map raw l' = map (fun txt => Some (fix_mojibake (clean_text txt))) l.
Proof.
  induction 1 as [|txt t l l' Ht F IH]; [reflexivity|].
  cbn [map]. now rewrite IH, (parse_card_text_raw txt t Ht).
Qed.

End Project.

Lemma count_parse_ok_filter (tips : list Tipologia) :
  count_parse_ok tips = Z.of_nat (List.length (filter parse_ok tips)).
Proof.
  induction tips as [|t tips IH]; [reflexivity|].
  cbn [count_parse_ok fold_right filter]. fold (count_parse_ok tips).
  destruct (parse_ok t); [|exact IH].
  cbn [List.length]. rewrite IH. lia.
Qed.

End ProjectMore.
Import ProjectMore.

(** X13.  When [NexoParser.parse] returns a project, its typologies are the
    records of the card texts of the page, one per text and in the order of
    the page, each keeping the normalized text of its card.  [parse] does
    return when the normalized text of every card has at most 4300
    characters, so that no digit group exceeds the limit of [int]. *)
Theorem parse_cards_in_order `{UnicodeData}
        (BeautifulSoup : pystr -> result node) (self : NexoParser)
        (page : node) :
  BeautifulSoup (html self) = Ok page ->
  (forall p,
      parse BeautifulSoup self = Ok p ->
      Forall2 (fun txt t => parse_card_text txt = Ok t)
              (extract_from_soup page) (tipologias p) /\
      map raw (tipologias p) =
      map (fun txt => Some (fix_mojibake (clean_text txt)))
          (extract_from_soup page)) /\
  ((forall txt, In txt (extract_from_soup page) ->
      (List.length (fix_mojibake (clean_text txt))
       <= int_max_str_digits)%nat) ->
   exists p, parse BeautifulSoup self = Ok p).
Proof.
  intros Hpage. split.
  - intros p Hp.
    destruct (parse_fields BeautifulSoup self p Hp)
      as (page' & Hpage' & Htips & _).
    assert (page' = page) as -> by congruence.
    pose proof (mapM_Forall2 _ _ _ _ _ Htips) as F.
    split; [exact F | exact (parse_card_texts_raw _ _ F)].
  - intros Hshort.
    destruct (parse_returns BeautifulSoup self page Hpage Hshort)
      as (p & Hp & _).
    now exists p.
Qed.

Lemma parse_cards_in_order_witness :
  exists p,
    @parse unicode_15 (fun _ => Ok page_one_block)
           {| html := []; soup := page_one_block |} = Ok p /\
    map raw (tipologias p) = [Some (py "Modelo B2 Desde S/ 100 m")].
Proof.
  destruct (@parse_cards_in_order unicode_15 (fun _ => Ok page_one_block)
              {| html := []; soup := page_one_block |} page_one_block
              eq_refl) as (Hraw & Hret).
  destruct Hret as (p & Hp).
  { intros txt Hin. vm_compute in Hin. destruct Hin as [<-|[]].
    vm_compute. lia. }
  exists p. split; [exact Hp | exact (proj2 (Hraw p Hp))].
Defined.

(** X14.  The price of a project is read from the text of the whole page:
    the currency is unset exactly when that text has no price, a currency
    that is set is S/ or US$ in some letter case, and a price that is set
    is not negative and comes with its currency. *)
Theorem parse_project_price `{UnicodeData}
        (BeautifulSoup : pystr -> result node) (self : NexoParser)
        (p : Proyecto) :
  parse BeautifulSoup self = Ok p ->
  (p_moneda p = None <->
   search DESDE_RE
     (fix_mojibake (clean_text (get_text (py " ") (soup self)))) = None) /\
  (forall cur, p_moneda p = Some cur -> currency_token cur) /\
  (forall v, p_precio_desde p = Some v ->
             (0 <= v)%Q /\ exists cur, p_moneda p = Some cur).
Proof.
  intros Hp.
  destruct (parse_fields BeautifulSoup self p Hp) as (page & _ & _ & _ & _ & E).
  destruct (search DESDE_RE _) as [m|] eqn:Hs.
  - pose proof (f_equal fst E) as Em. pose proof (f_equal snd E) as Ev.
    cbn [fst snd] in Em, Ev. clear E.
    destruct (search_sound _ DESDE_RE _ m DESDE_RE_respects Hs) as (G & B & _).
    destruct (group_bound "1" m) as [cur Ecur];
      [apply B, DESDE_RE_binds; cbn; tauto|].
    rewrite Em, Ev, Ecur. split; [split; discriminate|]. split.
    + intros c [= <-]. exact (G _ _ (group_In _ _ _ Ecur) eq_refl).
    + intros v Hv. split; [exact (parse_money_nonneg _ v Hv) | eauto].
  - pose proof (f_equal fst E) as Em. pose proof (f_equal snd E) as Ev.
    cbn [fst snd] in Em, Ev. rewrite Em, Ev.
    split; [tauto|]. split; discriminate.
Qed.

Lemma parse_project_price_witness :
  exists p,
    @parse unicode_15 (fun _ => Ok page_one_block)
           {| html := []; soup := page_one_block |} = Ok p /\
    p_moneda p = Some (py "S/") /\
    p_precio_desde p = Some 100%Q /\
    currency_token (py "S/") /\ (0 <= 100)%Q.
Proof.
  eexists. split; [vm_compute; reflexivity|].
  split; [reflexivity|]. split; [reflexivity|].
  destruct (@parse_project_price unicode_15 (fun _ => Ok page_one_block)
              {| html := []; soup := page_one_block |} _
              ltac:(vm_compute; reflexivity)) as (_ & Hc & Hv).
  split.
  - apply (Hc (py "S/")). reflexivity.
  - apply (Hv 100%Q). reflexivity.
Defined.

(** X15.  [NexoScraper.run] fails in three ways only.  A failed download
    is raised as [FetchError] with the address and the message of the
    cause.  A page that the HTML parser rejects raises the exception of that
    parser as it is, since the parser object is built outside the [try]
    block of [parse].  On a page that is fetched and accepted, [run] returns
    its dictionary, or raises the [ParseError] that carries the message of
    the [ValueError] of [int] on a digit group of a card text longer than
    the limit; it returns when the normalized text of every card has at most
    4300 characters. *)
Theorem run_failure_kinds `{UnicodeData}
        (BeautifulSoup : pystr -> result node)
        (download_html : pystr -> result pystr) (url : pystr) :
  (forall e, download_html url = Raise e ->
             NexoScraper_run BeautifulSoup download_html url =
             Raise (Exception "FetchError"
                      (py "Error fetching " ++ url ++ py ": " ++ exn_str e))) /\
  (forall page_html e,
      download_html url = Ok page_html ->
      BeautifulSoup page_html = Raise e ->
      NexoScraper_run BeautifulSoup download_html url = Raise e) /\
  (forall page_html page,
      download_html url = Ok page_html ->
      BeautifulSoup page_html = Ok page ->
      (exists d, NexoScraper_run BeautifulSoup download_html url = Ok d /\
                 data_url d = url) \/
      (exists txt n,
          In txt (extract_from_soup page) /\
          (int_max_str_digits < n)%nat /\
          (n <= List.length (fix_mojibake (clean_text txt)))%nat /\
          NexoScraper_run BeautifulSoup download_html url =
          Raise (Exception "ParseError"
                   (py "Error parsing Nexo: "
                       ++ exn_str (int_limit_error n))))) /\
  (forall page_html page,
      download_html url = Ok page_html ->
      BeautifulSoup page_html = Ok page ->
      (forall txt, In txt (extract_from_soup page) ->
         (List.length (fix_mojibake (clean_text txt))
          <= int_max_str_digits)%nat) ->
      exists d, NexoScraper_run BeautifulSoup download_html url = Ok d /\
                data_url d = url).
Proof.
  unfold NexoScraper_run, NexoScraper_fetch, NexoScraper_parse,
    NexoParser_init.
  split; [|split; [|split]].
  - intros e ->. reflexivity.
  - intros page_html e -> He. cbn [try_except bind]. now rewrite He.
  - intros page_html page -> Hp. cbn [try_except bind]. rewrite Hp.
    cbn [bind].
    destruct (parse_outcome BeautifulSoup
                {| html := page_html; soup := page |} page Hp)
      as [(p & -> & _)|(txt & n & Hin & H1 & H2 & ->)]; cbn [bind].
    + left. eauto.
    + right. exists txt, n. auto.
  - intros page_html page -> Hp Hshort. cbn [try_except bind]. rewrite Hp.
    cbn [bind].
    destruct (parse_returns BeautifulSoup
                {| html := page_html; soup := page |} page Hp Hshort)
      as (p & -> & _).
    cbn [bind]. eauto.
Qed.

Lemma run_failure_kinds_witness :
  @NexoScraper_run unicode_15 (fun _ => Raise rejected_markup)
    (fun _ => Ok (py "<![x]>")) (py "https://nexoinmobiliario.pe/x-1")
  = Raise rejected_markup.
Proof.
  apply (proj1 (proj2 (@run_failure_kinds unicode_15
                         (fun _ => Raise rejected_markup)
                         (fun _ => Ok (py "<![x]>"))
                         (py "https://nexoinmobiliario.pe/x-1")))
           (py "<![x]>") rejected_markup); reflexivity.
Defined.

(** X16.  The counters that [NexoScraper.run] adds partition the
    typologies: the rows are the typologies of the project, one per card
    text of the page, the full matches and the failures add up to the rows,
    and neither count is negative. *)
Theorem run_counters `{UnicodeData}
        (BeautifulSoup : pystr -> result node)
        (download_html : pystr -> result pystr) (url : pystr) (d : RunData) :
  NexoScraper_run BeautifulSoup download_html url = Ok d ->
  tipologias_rows d = Z.of_nat (List.length (tipologias (data d))) /\
  parse_ok_rows d =
    Z.of_nat (List.length (filter parse_ok (tipologias (data d)))) /\
  parse_ok_rows d + parse_fail_rows d = tipologias_rows d /\
  0 <= parse_ok_rows d /\ 0 <= parse_fail_rows d /\
  exists page_html page,
    download_html url = Ok page_html /\
    BeautifulSoup page_html = Ok page /\
    tipologias_rows d = Z.of_nat (List.length (extract_from_soup page)).
Proof.
  unfold NexoScraper_run, NexoScraper_fetch, NexoScraper_parse,
    NexoParser_init.
  destruct (download_html url) as [page_html|e] eqn:Hd;
    cbn [try_except bind]; [|discriminate].
  destruct (BeautifulSoup page_html) as [page|e] eqn:Hp;
    cbn [bind]; [|discriminate].
  destruct (parse BeautifulSoup {| html := page_html; soup := page |})
    as [p|e] eqn:Hparse; cbn [bind]; [|discriminate].
  destruct (parse_fields BeautifulSoup _ p Hparse)
    as (page' & Hp' & Hm & _).
  cbn [html] in Hp'. assert (page' = page) as -> by congruence.
  intros [= <-].
  cbn [tipologias_rows parse_ok_rows parse_fail_rows data].
  rewrite count_parse_ok_filter.
  pose proof (filter_length_le parse_ok (tipologias p)) as Hle.
  repeat split; try lia.
  exists page_html, page. repeat split; auto.
  apply mapM_Forall2, Forall2_length in Hm. now rewrite Hm.
Qed.

Lemma run_counters_witness :
  exists d,
    @NexoScraper_run unicode_15 (fun _ => Ok page_one_block)
      (fun _ => Ok (py "<li>")) (py "u") = Ok d /\
    tipologias_rows d = 1 /\ parse_ok_rows d + parse_fail_rows d = 1.
Proof.
  eexists. split; [vm_compute; reflexivity|].
  destruct (@run_counters unicode_15 (fun _ => Ok page_one_block)
              (fun _ => Ok (py "<li>")) (py "u") _
              ltac:(vm_compute; reflexivity)) as (Hr & _ & Hs & _).
  split; [reflexivity | exact Hs].
Defined.

(* ================================================================== *)
(** * Further properties: the helpers of the scripts *)
(* ================================================================== *)

Module ScriptFacts.

Lemma sub_non_alnum_dashed (s : pystr) :
  forall b, dashed b (sub_non_alnum b s) = true.
Proof.
  induction s as [|c s IH]; intros b; cbn [sub_non_alnum]; [reflexivity|].
  destruct (ascii_alnum c) eqn:Hc.
  - cbn [dashed]. rewrite Hc. apply IH.
  - destruct b; [apply IH|]. cbn [dashed].
    change (ascii_alnum hyphen) with false. cbn. apply IH.
Qed.

Lemma dashed_weaken (s : pystr) (b : bool) :
  dashed b s = true -> dashed false s = true.
Proof.
  destruct s as [|c s]; [reflexivity|]. cbn [dashed].
  destruct (ascii_alnum c); [auto|].
  intros H. apply andb_prop in H as [H Hs]. apply andb_prop in H as [Hc _].
  now rewrite Hc, Hs.
Qed.

Lemma dashed_prefix (s t : pystr) :
  forall b, dashed b (s ++ t) = true -> dashed b s = true.
Proof.
  induction s as [|c s IH]; intros b; cbn [dashed app]; [reflexivity|].
  destruct (ascii_alnum c); [apply IH|].
  intros H. apply andb_prop in H as [H Hs]. rewrite H. now apply IH.
Qed.

Lemma dashed_suffix (s t : pystr) :
  forall b, dashed b (s ++ t) = true -> dashed false t = true.
Proof.
  induction s as [|c s IH]; intros b; cbn [dashed app].
  - apply dashed_weaken.
  - destruct (ascii_alnum c); [apply IH|].
    intros H. apply andb_prop in H as [_ Hs]. now apply IH in Hs.
Qed.

Lemma dashed_chars (s : pystr) (c : codepoint) :
  forall b, dashed b s = true -> In c s ->
            ascii_alnum c = true \/ c = hyphen.
Proof.
  induction s as [|d s IH]; intros b H Hin; [destruct Hin|].
  cbn [dashed] in H. destruct Hin as [->|Hin].
  - destruct (ascii_alnum c); [now left|].
    apply andb_prop in H as [H _]. apply andb_prop in H as [H _].
    right. now apply Z.eqb_eq.
  - destruct (ascii_alnum d); [eauto|].
    apply andb_prop in H as [_ H]. eauto.
Qed.

Lemma dashed_no_double (a t : pystr) :
  forall b, dashed b (a ++ hyphen :: hyphen :: t) = false.
Proof.
  induction a as [|c a IH]; intros b; cbn [dashed app].
  - change (ascii_alnum hyphen) with false. cbn.
    now rewrite andb_false_r.
  - destruct (ascii_alnum c); [apply IH|].
    rewrite IH. apply andb_false_r.
Qed.

(** [strip_chars] takes a piece out of the middle, whose ends do not
    satisfy [p]. *)
Lemma strip_chars_middle (p : codepoint -> bool) (s : pystr) :
  exists pre post,
    s = pre ++ strip_chars p s ++ post /\
    forallb p pre = true /\ forallb p post = true.
Proof.
  destruct (dropwhile_suffix p s) as (pre & E & Hp).
  destruct (dropwhile_suffix p (rev (dropwhile p s))) as (q & Eq & Hq).
  exists pre, (rev q). split; [|split; [exact Hp|]].
  - rewrite E at 1. f_equal. unfold strip_chars.
    rewrite <- (rev_involutive (dropwhile p s)) at 1.
    rewrite Eq at 1. now rewrite rev_app_distr.
  - rewrite forallb_forall in *. intros c Hc. apply Hq. now apply in_rev.
Qed.

Lemma strip_chars_last (p : codepoint -> bool) (s a : pystr) (x : codepoint) :
  strip_chars p s = a ++ [x] -> p x = false.
Proof.
  unfold strip_chars. intros E.
  pose proof (dropwhile_head p (rev (dropwhile p s))) as Hh.
  apply (f_equal (@rev _)) in E. rewrite rev_involutive, rev_app_distr in E.
  cbn in E. now rewrite E in Hh.
Qed.

Lemma last_n_suffix (n : nat) (s : pystr) :
  exists pre, s = pre ++ last_n n s.
Proof.
  unfold last_n. destruct (n <? List.length s)%nat.
  - exists (firstn (List.length s - n) s). symmetry. apply firstn_skipn.
  - now exists [].
Qed.

Lemma last_n_length (n : nat) (s : pystr) :
  (List.length (last_n n s) <= n)%nat.
Proof.
  unfold last_n. destruct (Nat.ltb_spec n (List.length s)) as [Hlt|Hge].
  - rewrite length_skipn. lia.
  - exact Hge.
Qed.

Lemma last_n_nil (n : nat) (s : pystr) :
  (0 < n)%nat -> last_n n s = [] -> s = [].
Proof.
  unfold last_n. intros Hn.
  destruct (Nat.ltb_spec n (List.length s)) as [Hlt|Hge]; [|auto].
  intros E. apply (f_equal (@List.length _)) in E.
  rewrite length_skipn in E. cbn in E. lia.
Qed.

Lemma filter_alnum_sub (s : pystr) :
  forall b, filter ascii_alnum (sub_non_alnum b s) = filter ascii_alnum s.
Proof.
  induction s as [|c s IH]; intros b; [reflexivity|].
  cbn [sub_non_alnum filter].
  destruct (ascii_alnum c) eqn:Hc.
  - cbn [filter]. rewrite Hc. now rewrite IH.
  - destruct b; [apply IH|]. cbn [filter].
    change (ascii_alnum hyphen) with false. apply IH.
Qed.

Lemma filter_none (p q : codepoint -> bool) (l : pystr) :
  (forall c, p c = true -> q c = false) -> forallb p l = true ->
  filter q l = [].
Proof.
  intros Hpq. induction l as [|c l IH]; [reflexivity|]. cbn [forallb filter].
  intros H. apply andb_prop in H as [Hc Hl]. rewrite (Hpq c Hc). auto.
Qed.

Lemma hyphen_not_alnum (c : codepoint) :
  is_hyphen c = true -> ascii_alnum c = false.
Proof. unfold is_hyphen. intros E. apply Z.eqb_eq in E. now subst c. Qed.

(** The lines of [splitlines] hold no line boundary. *)
Lemma splitlines_from_clean (s : pystr) :
  forall after_cr cur,
    forallb (fun c => negb (is_linebreak c)) cur = true ->
    Forall (fun l => forallb (fun c => negb (is_linebreak c)) l = true)
           (splitlines_from after_cr cur s).
Proof.
  induction s as [|c s IH]; intros after_cr cur Hcur; cbn [splitlines_from].
  - destruct cur; constructor; [|constructor].
    rewrite forallb_forall in *. intros x Hx. apply Hcur. now apply in_rev.
  - destruct ((c =? 0x0A) && after_cr); [now apply IH|].
    destruct (is_linebreak c) eqn:Hc.
    + constructor; [|now apply IH].
      rewrite forallb_forall in *. intros x Hx. apply Hcur. now apply in_rev.
    + apply IH. cbn [forallb]. now rewrite Hc.
Qed.

End ScriptFacts.
Import ScriptFacts.

(** X17.  The file-name slug of an address has at most 80 characters, all of
    them ASCII letters, digits or hyphens, never two hyphens in a row and
    never a hyphen at the end; it keeps the trailing letters and digits of
    the address in their order, and it is empty exactly when the address has
    no ASCII letter or digit. *)
Theorem slugify_shape (url : pystr) :
  (List.length (_slugify url) <= 80)%nat /\
  (forall c, In c (_slugify url) -> ascii_alnum c = true \/ c = hyphen) /\
  (forall a b, _slugify url <> a ++ hyphen :: hyphen :: b) /\
  (forall a, _slugify url <> a ++ [hyphen]) /\
  (exists pre, filter ascii_alnum url = pre ++ filter ascii_alnum (_slugify url)) /\
  (_slugify url = [] <-> filter ascii_alnum url = []).
Proof.
  unfold _slugify.
  remember (sub_non_alnum false url) as subbed eqn:Esub.
  remember (strip_chars is_hyphen subbed) as stripped eqn:Estr.
  destruct (strip_chars_middle is_hyphen subbed)
    as (pre & post & Es & Hpre & Hpost). rewrite <- Estr in Es.
  destruct (last_n_suffix 80 stripped) as (cut & Ec).
  assert (Hd : dashed false stripped = true).
  { pose proof (sub_non_alnum_dashed url false) as H. rewrite <- Esub in H.
    rewrite Es in H. apply dashed_suffix in H.
    now apply dashed_prefix in H. }
  assert (Hs : dashed false (last_n 80 stripped) = true).
  { rewrite Ec in Hd. now apply dashed_suffix in Hd. }
  assert (Hf : filter ascii_alnum stripped = filter ascii_alnum url).
  { rewrite <- (filter_alnum_sub url false). rewrite <- Esub. rewrite Es.
    rewrite !filter_app.
    rewrite (filter_none is_hyphen ascii_alnum pre hyphen_not_alnum Hpre).
    rewrite (filter_none is_hyphen ascii_alnum post hyphen_not_alnum Hpost).
    now rewrite app_nil_r. }
  split; [apply last_n_length|].
  split; [intros c Hc; exact (dashed_chars _ c false Hs Hc)|].
  split.
  { intros a b E. rewrite E in Hs. now rewrite dashed_no_double in Hs. }
  split.
  { intros a E. rewrite E in Ec. rewrite app_assoc in Ec. rewrite Estr in Ec.
    apply strip_chars_last in Ec. discriminate Ec. }
  split.
  { exists (filter ascii_alnum cut). rewrite <- Hf. rewrite Ec at 1.
    apply filter_app. }
  split.
  - intros E. apply last_n_nil in E; [|lia]. rewrite <- Hf, E. reflexivity.
  - intros E. rewrite <- Hf in E.
    destruct stripped as [|x l]; [reflexivity|].
    exfalso.
    assert (Hx : is_hyphen x = false).
    { pose proof (dropwhile_head is_hyphen subbed) as Hh.
      unfold strip_chars in Estr.
      destruct (dropwhile is_hyphen subbed) as [|y r]; [discriminate Estr|].
      cbn [rev] in Estr.
      rewrite (dropwhile_snoc is_hyphen (rev r) y Hh) in Estr.
      rewrite rev_app_distr in Estr. cbn in Estr. now injection Estr as -> _. }
    destruct (dashed_chars (x :: l) x false Hd (or_introl eq_refl)) as [Ha|Ha].
    + cbn [filter] in E. rewrite Ha in E. discriminate E.
    + subst x. discriminate Hx.
Qed.

(** X18.  Every address that [_read_urls] returns is one line of the file
    without its surrounding whitespace: it is not empty, does not start
    with the comment sign, holds no line boundary, and neither starts nor
    ends with whitespace. *)
Theorem read_urls_entries (content : pystr) (u : pystr) :
  In u (_read_urls content) ->
  u <> [] /\
  startswith (py "#") u = false /\
  forallb (fun c => negb (is_linebreak c)) u = true /\
  match u with [] => True | x :: _ => isspace x = false end /\
  match rev u with [] => True | x :: _ => isspace x = false end /\
  exists line, In line (splitlines content) /\ u = strip line.
Proof.
  unfold _read_urls. intros Hin.
  apply filter_In in Hin as [Hin Hk].
  apply in_map_iff in Hin as (line & <- & Hl).
  apply andb_prop in Hk as [Hne Hc].
  split; [intros E; rewrite E in Hne; discriminate Hne|].
  split; [now destruct (startswith (py "#") (strip line))|].
  split.
  { pose proof (splitlines_from_clean content false [] eq_refl) as F.
    rewrite Forall_forall in F. specialize (F line Hl).
    rewrite forallb_forall in *. intros c Hx. apply F.
    destruct (strip_middle line) as (pre & post & E & _).
    rewrite E. apply in_or_app. right. apply in_or_app. now left. }
  destruct (strip_ends line) as [Hh Ht].
  repeat split; eauto.
Qed.

Lemma read_urls_entries_witness :
  _read_urls urls_file_text =
  [py "https://nexoinmobiliario.pe/a-1"; py "https://nexoinmobiliario.pe/b-2"]
  /\ startswith (py "#") (py "https://nexoinmobiliario.pe/b-2") = false.
Proof.
  split; [vm_compute; reflexivity|].
  apply (read_urls_entries urls_file_text
           (py "https://nexoinmobiliario.pe/b-2")).
  vm_compute. tauto.
Defined.
